(** * Debt dashboard: strategy advisor, projection engine and login gate

    A shallow embedding of the [analysis] and [projection] memos of the
    Dashboard component and of [handleLogin] of the Login component.

    JavaScript numbers are modelled as exact rationals ([Q]): the engine's
    arithmetic ([+], [-], [*], [/], [Math.min], [Math.max], [Math.round],
    comparisons) is carried out without the rounding of binary64.  The
    inputs on which a statement is shown to fail below hold integers and
    halves and go through no division, so that binary64 computes the same
    values on them.  Where a statement turns on the rounding itself, the step
    is given again in binary64, in the module [B64]. *)

From Stdlib Require Import QArith Qminmax Qround ZArith List String Bool Arith Lia.
From Stdlib Require Import DecimalString Lqa Permutation Sorted.
From Stdlib Require Floats.
From Equations Require Import Equations.
Import ListNotations.

Local Open Scope Q_scope.

(** ** JavaScript primitives *)

Module JS.

(** [a < b] on numbers. *)
Definition ltb (a b : Q) : bool := negb (Qle_bool b a).

(** [a > b] on numbers. *)
Definition gtb (a b : Q) : bool := ltb b a.

(** [a === b] on numbers. *)
Definition eqb (a b : Q) : bool := Qeq_bool a b.

(** Truthiness of a number: every number but zero. *)
Definition truthy (a : Q) : bool := negb (Qeq_bool a 0).

(** [o || 0] for an optional number. *)
Definition or_zero (o : option Q) : Q :=
  match o with
  | Some a => if truthy a then a else 0
  | None => 0
  end.

(** [Math.round]: nearest integer, halves go up. *)
Definition Math_round (a : Q) : Q := inject_Z (Qfloor (a + (1 # 2))).

Definition Math_min (a b : Q) : Q := Qmin a b.
Definition Math_max (a b : Q) : Q := Qmax a b.

(** [Array.prototype.sort(compareFn)].  The sort of ECMAScript is stable, and
    for a consistent comparator the stable sorted arrangement is unique; it is
    computed here by insertion from the right, an element being placed in
    front of the elements it does not compare greater than. *)
Section Sort.
Context {A : Type} (compareFn : A -> A -> Q).

Fixpoint place (x : A) (l : list A) : list A :=
  match l with
  | [] => [x]
  | y :: l' =>
      if Qle_bool (compareFn x y) 0 then x :: y :: l' else y :: place x l'
  end.

Definition sort (l : list A) : list A := fold_right place [] l.
End Sort.

(** An array of object references: each element travels with its position
    in the array it was taken from. *)
Definition refs {A : Type} (l : list A) : list (nat * A) :=
  combine (seq 0 (List.length l)) l.

(** Write through the reference at position [i]. *)
Fixpoint update {A : Type} (i : nat) (f : A -> A) (l : list A) : list A :=
  match l, i with
  | [], _ => []
  | x :: l', O => f x :: l'
  | x :: l', S i' => x :: update i' f l'
  end.

(** Decimal rendering of a month counter inside a template string. *)
Definition nat_to_string (n : nat) : string :=
  NilEmpty.string_of_uint (Nat.to_uint n).

End JS.

(** ** Data model *)

(** Modelled from the spec: the [Debt] interface of [../types], which is not
    among the sources; the fields are those the Dashboard reads. *)
Record Debt : Type := mkDebt {
  name : string;
  initialAmount : Q;
  currentAmount : Q;
  interestRate : option Q;
  minPayment : Q;
  color : string
}.

(** [{...d, currentAmount: a}]: the in-place write [d.currentAmount = a]. *)
Definition set_currentAmount (d : Debt) (a : Q) : Debt :=
  {| name := name d;
     initialAmount := initialAmount d;
     currentAmount := a;
     interestRate := interestRate d;
     minPayment := minPayment d;
     color := color d |}.

Inductive StrategyType : Type := snowball | avalanche.

(** [debts.reduce((acc, d) => acc + d.currentAmount, 0)] *)
Definition sumCurrentAmount (debts : list Debt) : Q :=
  fold_left (fun acc d => acc + currentAmount d) debts 0.

(** [debts.reduce((acc, d) => acc + d.minPayment, 0)] *)
Definition sumMinPayment (debts : list Debt) : Q :=
  fold_left (fun acc d => acc + minPayment d) debts 0.

(** [availableMoney] and [paymentCapacity] of the Dashboard. *)
Definition availableMoney (totalIncome totalExpenses totalMinPayments : Q) : Q :=
  totalIncome - totalExpenses - totalMinPayments.

Definition paymentCapacity (totalIncome totalExpenses totalMinPayments : Q) : Q :=
  availableMoney totalIncome totalExpenses totalMinPayments + totalMinPayments.

(** The two comparators handed to [sort]. *)
Definition byBalance (a b : Debt) : Q := currentAmount a - currentAmount b.

Definition byRateDesc (a b : Debt) : Q :=
  JS.or_zero (interestRate b) - JS.or_zero (interestRate a).

(** ** Strategy advisor ([analysis]) *)

(** The three template strings of [reason], kept with the values they
    interpolate. *)
Inductive Reason : Type :=
| VeryHighInterest (debtName : string) (maxInterest : Q)
| SmallDebt (debtName : string) (balance : Q)
| Mathematically.

Record Analysis : Type := mkAnalysis {
  recommended : StrategyType;
  reason : Reason;
  maxInterestDebt : Debt;
  minBalanceDebt : Debt
}.

Definition isActive (d : Debt) : bool := JS.gtb (currentAmount d) 0.

(** [sorted[0]] of an array known to be non-empty; [fallback] stands for the
    [undefined] of an empty array and is never returned, [sort] keeping the
    length of its argument. *)
Definition first {A : Type} (fallback : A) (sorted : list A) : A :=
  hd fallback sorted.

Definition analysis (debts : list Debt) : option Analysis :=
  let activeDebts := filter isActive debts in
  match activeDebts with
  | [] => None
  | d0 :: _ =>
      let maxInterestDebt := first d0 (JS.sort byRateDesc activeDebts) in
      let minBalanceDebt := first d0 (JS.sort byBalance activeDebts) in
      let maxInterest := JS.or_zero (interestRate maxInterestDebt) in
      if JS.gtb maxInterest 40 then
        Some (mkAnalysis avalanche
                (VeryHighInterest (name maxInterestDebt) maxInterest)
                maxInterestDebt minBalanceDebt)
      else if JS.ltb (currentAmount minBalanceDebt) 5000 then
        Some (mkAnalysis snowball
                (SmallDebt (name minBalanceDebt) (currentAmount minBalanceDebt))
                maxInterestDebt minBalanceDebt)
      else
        Some (mkAnalysis avalanche Mathematically maxInterestDebt minBalanceDebt)
  end.

(** [strategy || analysis?.recommended || 'avalanche'] *)
Definition currentStrategy (strategy : option StrategyType)
    (a : option Analysis) : StrategyType :=
  match strategy, a with
  | Some s, _ => s
  | None, Some r => recommended r
  | None, None => avalanche
  end.

(** ** Projection engine ([projection]) *)

(** One element of [projectionData]. *)
Record Point : Type := mkPoint {
  monthLabel : string;
  deuda : Q;
  riqueza : Q;
  index : nat
}.

Record Projection : Type := mkProjection {
  data : list Point;
  debtFreeInMonths : nat
}.

(** The variables of the simulation that live across iterations of the
    [while] loop. *)
Record SimState : Type := mkSimState {
  simDebts : list Debt;
  month : nat;
  currentTotalDebt : Q;
  accumulatedWealth : Q;
  projectionData : list Point
}.

Definition maxMonths : nat := 60.

(** 1. Apply Interest: the body of the first [forEach].  The test
    [d.currentAmount > 0 && d.interestRate] fails on a rate that is
    [undefined] or zero. *)
Definition applyInterest (d : Debt) : Debt :=
  match interestRate d with
  | Some r =>
      if JS.gtb (currentAmount d) 0 && JS.truthy r then
        let monthlyRate := (r / 100) / 12 in
        set_currentAmount d (currentAmount d + currentAmount d * monthlyRate)
      else d
  | None => d
  end.

(** 2. Pay Minimums first: the second [forEach], threading [monthlyBudget]. *)
Fixpoint payMinimums (ds : list Debt) (monthlyBudget : Q) : list Debt * Q :=
  match ds with
  | [] => ([], monthlyBudget)
  | d :: rest =>
      if JS.gtb (currentAmount d) 0 then
        let payment := JS.Math_min (currentAmount d) (minPayment d) in
        let (rest', budget') := payMinimums rest (monthlyBudget - payment) in
        (set_currentAmount d (currentAmount d - payment) :: rest', budget')
      else
        let (rest', budget') := payMinimums rest monthlyBudget in
        (d :: rest', budget')
  end.

(** The comparator of the strategy, on references into [simDebts]. *)
Definition strategyOrder (s : StrategyType) (a b : nat * Debt) : Q :=
  match s with
  | snowball => byBalance (snd a) (snd b)
  | avalanche => byRateDesc (snd a) (snd b)
  end.

(** The references to the debts that still have a balance. *)
Definition activeRefs (ds : list Debt) : list (nat * Debt) :=
  filter (fun r => isActive (snd r)) (JS.refs ds).

(** 3. Pay Extra with remaining budget.  [activeDebts] holds references to the
    objects of [simDebts], so the payment on [targetDebt] is a write into
    [simDebts] at the position the reference carries.  Returns the debts, the
    budget and the wealth after the block. *)
Definition payExtra (s : StrategyType) (ds : list Debt)
    (monthlyBudget wealth : Q) : list Debt * Q * Q :=
  if JS.gtb monthlyBudget 0 then
    let activeDebts := activeRefs ds in
    match activeDebts with
    | r0 :: _ =>
        let targetDebt := first r0 (JS.sort (strategyOrder s) activeDebts) in
        let extraPayment :=
          JS.Math_min (currentAmount (snd targetDebt)) monthlyBudget in
        (JS.update (fst targetDebt)
           (fun d => set_currentAmount d (currentAmount d - extraPayment)) ds,
         monthlyBudget - extraPayment,
         wealth)
    | [] => (ds, monthlyBudget, wealth + monthlyBudget)
    end
  else (ds, monthlyBudget, wealth).

(** The object pushed on [projectionData] at the end of a simulated month. *)
Definition monthPoint (month' : nat) (total wealth : Q) : Point :=
  {| monthLabel := String.append "Mes " (JS.nat_to_string month');
     deuda := JS.Math_max 0 (JS.Math_round total);
     riqueza := JS.Math_round wealth;
     index := month' |}.

(** The body of the [while] loop: one simulated month. *)
Definition simulateMonth (capacity : Q) (s : StrategyType) (st : SimState)
    : SimState :=
  let month' := S (month st) in
  let monthlyBudget := capacity in
  let ds1 := map applyInterest (simDebts st) in
  let '(ds2, budget2) := payMinimums ds1 monthlyBudget in
  let '(ds3, budget3, wealth3) :=
    payExtra s ds2 budget2 (accumulatedWealth st) in
  let total := sumCurrentAmount ds3 in
  let wealth4 :=
    if JS.eqb total 0 && JS.gtb budget3 0 then wealth3 + budget3 else wealth3 in
  {| simDebts := ds3;
     month := month';
     currentTotalDebt := total;
     accumulatedWealth := wealth4;
     projectionData :=
       projectionData st ++ [monthPoint month' total wealth4] |}.

(** [(currentTotalDebt > 0 || month < 12) && month < maxMonths] *)
Definition loopCondition (st : SimState) : bool :=
  (JS.gtb (currentTotalDebt st) 0 || (month st <? 12)%nat)
  && (month st <? maxMonths)%nat.

(** The [while] loop, run from the state [st] until its condition fails.
    Every iteration increments [month], and the condition bounds it by
    [maxMonths]: the distance to the cap decreases. *)
Equations? simulate (capacity : Q) (s : StrategyType) (st : SimState)
    : SimState by wf (maxMonths - month st)%nat lt :=
  simulate capacity s st with Equations.Prop.Logic.inspect (loopCondition st) => {
    | exist _ true _ => simulate capacity s (simulateMonth capacity s st);
    | exist _ false _ => st }.
Proof.
  assert (Hdec : (maxMonths - month (simulateMonth capacity s st)
                  < maxMonths - month st)%nat).
  { assert (Hm : month (simulateMonth capacity s st) = S (month st)).
    { unfold simulateMonth.
      destruct (payMinimums _ _) as [ds2 b2].
      destruct (payExtra _ _ _ _) as [[ds3 b3] w3].
      reflexivity. }
    rewrite Hm.
    unfold loopCondition in e.
    apply andb_prop in e. destruct e as [_ Hlt].
    apply Nat.ltb_lt in Hlt. lia. }
  exact Hdec.
Qed.

(** The state before the loop: the cloned debts and the "Hoy" point. *)
Definition initialState (debts : list Debt) (totalDebt : Q) : SimState :=
  {| simDebts := debts;
     month := 0;
     currentTotalDebt := totalDebt;
     accumulatedWealth := 0;
     projectionData :=
       [ {| monthLabel := "Hoy"; deuda := totalDebt; riqueza := 0; index := 0 |} ] |}.

(** [projectionData.find(p => p.deuda === 0)?.index || maxMonths] *)
Definition debtFreeMonth (points : list Point) : nat :=
  match find (fun p => JS.eqb (deuda p) 0) points with
  | Some p => if (index p =? 0)%nat then maxMonths else index p
  | None => maxMonths
  end.

(** The [projection] memo; [None] is its [null].  [debtFreeDate] is the
    clock's date moved on by [debtFreeInMonths] months and is left out. *)
Definition projection (debts : list Debt) (capacity : Q) (s : StrategyType)
    : option Projection :=
  let totalDebt := sumCurrentAmount debts in
  if JS.eqb totalDebt 0 then None
  else
    let final := simulate capacity s (initialState debts totalDebt) in
    Some {| data := projectionData final;
            debtFreeInMonths := debtFreeMonth (projectionData final) |}.

(** ** Login gate ([handleLogin]) *)

(** Modelled from the spec: the [UserProfile] type of [../types], which is not
    among the sources; its two values are the ones the Login component
    passes to [setSelectedUser]. *)
Inductive UserProfile : Type := Edna | Ronaldo.

(** The React state of the component that [handleLogin] reads and sets. *)
Record LoginState : Type := mkLoginState {
  selectedUser : option UserProfile;
  pin : string;
  error : string
}.

(** The calls [handleLogin] makes on its collaborators. *)
Inductive Call : Type :=
| preventDefault
| onLogin (user : UserProfile).

(** [handleLogin]: the state after the handler and the calls it made, in
    order. *)
Definition handleLogin (st : LoginState) : LoginState * list Call :=
  match selectedUser st with
  | None => (st, [preventDefault])
  | Some user =>
      if String.eqb (pin st) "2024" then (st, [preventDefault; onLogin user])
      else
        ({| selectedUser := selectedUser st; pin := ""; error := "PIN Incorrecto" |},
         [preventDefault])
  end.

(** ** Sample data used in the evaluations below *)

Definition debt (n : string) (balance : Q) (rate : option Q) (minimum : Q) : Debt :=
  {| name := n; initialAmount := balance; currentAmount := balance;
     interestRate := rate; minPayment := minimum; color := "#000000" |}.

(** Scenario B of the specification: A, 1000 at 60%, and B, 5000 at 10%,
    minimum 100 each. *)
Definition debtA : Debt := debt "A" 1000 (Some 60) 100.
Definition debtB : Debt := debt "B" 5000 (Some 10) 100.
Definition scenarioB : list Debt := [debtA; debtB].

(** Two debts of equal rate and equal balance, told apart by their names. *)
Definition twinFirst : Debt := debt "first" 8000 (Some 20) 200.
Definition twinSecond : Debt := debt "second" 8000 (Some 20) 200.
Definition twins : list Debt := [twinFirst; twinSecond].

(** ** Specification vocabulary *)

(** [x], at position [i] of [l], is the first of the elements of [l] selected
    by [p] that has the least [key]: the selected elements in front of it have
    a strictly greater key, those behind it a key at least as great. *)
Definition FirstLeast {A : Type} (p : A -> bool) (key : A -> Q)
    (l : list A) (i : nat) (x : A) : Prop :=
  exists l1 l2,
    l = l1 ++ x :: l2 /\ List.length l1 = i /\ p x = true /\
    (forall y, In y l1 -> p y = true -> key x < key y) /\
    (forall y, In y l2 -> p y = true -> key x <= key y).

(** The same with the greatest [key]. *)
Definition FirstGreatest {A : Type} (p : A -> bool) (key : A -> Q)
    (l : list A) (i : nat) (x : A) : Prop :=
  exists l1 l2,
    l = l1 ++ x :: l2 /\ List.length l1 = i /\ p x = true /\
    (forall y, In y l1 -> p y = true -> key y < key x) /\
    (forall y, In y l2 -> p y = true -> key y <= key x).

(** The annual rate the engine and the advisor read off a debt. *)
Definition rate (d : Debt) : Q := JS.or_zero (interestRate d).

(** What the minimum pass takes from one debt. *)
Definition minimumPaid (d : Debt) : Q :=
  if isActive d then JS.Math_min (currentAmount d) (minPayment d) else 0.

(** What the minimum pass takes from a list of debts. *)
Definition minimumsPaid (ds : list Debt) : Q :=
  fold_right (fun d acc => minimumPaid d + acc) 0 ds.

(** The minimum payments asked by the debts that have a balance. *)
Definition minimumsDue (ds : list Debt) : Q :=
  fold_right (fun d acc => (if isActive d then minPayment d else 0) + acc) 0 ds.

(** The simulation state after [k] months. *)
Definition afterMonths (capacity : Q) (s : StrategyType) (k : nat)
    (st : SimState) : SimState :=
  Nat.iter k (simulateMonth capacity s) st.

(** The point a simulated month leaves on [projectionData], read off the
    state at the end of that month. *)
Definition emitted (st : SimState) : Point :=
  monthPoint (month st) (sumCurrentAmount (simDebts st)) (accumulatedWealth st).

(** ** The rest of the Dashboard *)

(** [getPriorityDebt], for the strategy in force. *)
Definition getPriorityDebt (debts : list Debt) (s : StrategyType) : option Debt :=
  let activeDebts := filter isActive debts in
  match activeDebts with
  | [] => None
  | d0 :: _ =>
      match s with
      | snowball => Some (first d0 (JS.sort byBalance activeDebts))
      | avalanche => Some (first d0 (JS.sort byRateDesc activeDebts))
      end
  end.

(** [debts.reduce((acc, d) => acc + d.initialAmount, 0)] *)
Definition sumInitialAmount (debts : list Debt) : Q :=
  fold_left (fun acc d => acc + initialAmount d) debts 0.

(** [totalPaidOff] *)
Definition totalPaidOff (debts : list Debt) : Q :=
  sumInitialAmount debts - sumCurrentAmount debts.

(** An entry of [data.history]; the type is declared in [../types], which is
    not among the sources, and the fields are those the Dashboard reads. *)
Record HistoryEntry : Type := mkHistoryEntry {
  date : string;
  totalDebt : Q
}.

(** [{...h, paid}]: an entry of the history chart. *)
Record HistoryPoint : Type := mkHistoryPoint {
  entry : HistoryEntry;
  paid : Q
}.

(** [historyDataWithPaid] *)
Definition historyDataWithPaid (debts : list Debt) (history : list HistoryEntry)
    : list HistoryPoint :=
  map (fun h =>
         {| entry := h;
            paid := JS.Math_max 0 (sumInitialAmount debts - totalDebt h) |})
      history.

(** [currentHistoryPoint] *)
Definition currentHistoryPoint (debts : list Debt) : HistoryPoint :=
  {| entry := {| date := "Hoy"; totalDebt := sumCurrentAmount debts |};
     paid := totalPaidOff debts |}.

(** [finalHistoryData] *)
Definition finalHistoryData (debts : list Debt) (history : list HistoryEntry)
    : list HistoryPoint :=
  historyDataWithPaid debts history ++ [currentHistoryPoint debts].

(** ** The rest of the Login component *)

(** The state of the component: the gate's state and the two pieces that
    belong to the configuration dialog. *)
Record LoginView : Type := mkLoginView {
  gate : LoginState;
  showConfig : bool;
  firebaseConfig : string
}.

(** How [handleSaveConfig] ends.  Which way it goes is decided by
    [JSON.parse] on the pasted text and by the presence of the
    [onSaveCloudConfig] property, neither of which is modelled: the text did
    not parse, lacks a required field or the property threw ([rejected]), it
    parsed and the property is there ([saved]), it parsed and there is no
    property ([unwired]). *)
Inductive SaveOutcome : Type := rejected | saved | unwired.

(** What the user can do on the screen. *)
Inductive Event : Type :=
| clickUser (user : UserProfile)
| clickChangeUser
| typePin (value : string)
| submitForm
| openConfig
| closeConfig
| typeConfig (value : string)
| clickSave (outcome : SaveOutcome).

(** Whether the element that raises the event is on the screen: the two user
    buttons stand in place of the form, and the dialog's controls come with
    the dialog. *)
Definition rendered (v : LoginView) (e : Event) : bool :=
  match e with
  | clickUser _ =>
      match selectedUser (gate v) with None => true | Some _ => false end
  | clickChangeUser | typePin _ | submitForm =>
      match selectedUser (gate v) with None => false | Some _ => true end
  | openConfig => true
  | closeConfig | typeConfig _ | clickSave _ => showConfig v
  end.

(** The handler of each event: the state it leaves and the calls the gate
    makes ([onSaveCloudConfig] and [alert] are not recorded). *)
Definition react (v : LoginView) (e : Event) : LoginView * list Call :=
  match e with
  | clickUser user =>
      ({| gate := {| selectedUser := Some user; pin := pin (gate v);
                     error := error (gate v) |};
          showConfig := showConfig v; firebaseConfig := firebaseConfig v |}, [])
  | clickChangeUser =>
      ({| gate := {| selectedUser := None; pin := ""; error := "" |};
          showConfig := showConfig v; firebaseConfig := firebaseConfig v |}, [])
  | typePin value =>
      ({| gate := {| selectedUser := selectedUser (gate v); pin := value;
                     error := "" |};
          showConfig := showConfig v; firebaseConfig := firebaseConfig v |}, [])
  | submitForm =>
      let (g, calls) := handleLogin (gate v) in
      ({| gate := g; showConfig := showConfig v;
          firebaseConfig := firebaseConfig v |}, calls)
  | openConfig =>
      ({| gate := gate v; showConfig := true;
          firebaseConfig := firebaseConfig v |}, [])
  | closeConfig =>
      ({| gate := gate v; showConfig := false;
          firebaseConfig := firebaseConfig v |}, [])
  | typeConfig value =>
      ({| gate := gate v; showConfig := showConfig v;
          firebaseConfig := value |}, [])
  | clickSave rejected =>
      ({| gate := {| selectedUser := selectedUser (gate v); pin := pin (gate v);
                     error := "Formato inválido. Asegúrate de copiar solo el objeto { ... } y que sea JSON válido." |};
          showConfig := showConfig v; firebaseConfig := firebaseConfig v |}, [])
  | clickSave saved =>
      ({| gate := gate v; showConfig := false;
          firebaseConfig := firebaseConfig v |}, [])
  | clickSave unwired => (v, [])
  end.

(** The component as first mounted. *)
Definition mounted : LoginView :=
  {| gate := {| selectedUser := None; pin := ""; error := "" |};
     showConfig := false; firebaseConfig := "" |}.

(** A session: the events in order, each raised by an element that is on the
    screen at that moment; [None] when one is not. *)
Fixpoint session (v : LoginView) (events : list Event)
    : option (LoginView * list Call) :=
  match events with
  | [] => Some (v, [])
  | e :: rest =>
      if rendered v e then
        let (v', calls) := react v e in
        match session v' rest with
        | Some (final, later) => Some (final, calls ++ later)
        | None => None
        end
      else None
  end.

(** ** More specification vocabulary *)

(** What the contract of a debt fixes: everything but the balance. *)
Definition terms (d : Debt) : string * Q * option Q * Q * string :=
  (name d, initialAmount d, interestRate d, minPayment d, color d).

(** A debt as the caller is expected to give it: no negative balance and no
    negative rate. *)
Definition WellFormed (d : Debt) : Prop :=
  0 <= currentAmount d /\ forall r, interestRate d = Some r -> 0 <= r.

(** The sum of the balances, from the right. *)
Definition balances (ds : list Debt) : Q :=
  fold_right (fun d acc => currentAmount d + acc) 0 ds.

(** The annual rate of a debt as the specification words it: the rate the
    debt carries, and 0 for a debt that carries none. *)
Definition annualRate (d : Debt) : Q :=
  match interestRate d with
  | Some r => r
  | None => 0
  end.

(** The budget behind a run of debts in the minimum pass, by the words of the
    pass: each debt with a positive balance takes [min(balance, minPayment)]
    from whatever it finds. *)
Definition chargedBudget (ds : list Debt) (budget : Q) : Q :=
  fold_left
    (fun b d =>
       if JS.gtb (currentAmount d) 0
       then b - JS.Math_min (currentAmount d) (minPayment d)
       else b)
    ds budget.

(** A debt of lower rate and higher balance in front of the two twins. *)
Definition tiesBehindAnother : list Debt :=
  [debt "low" 9000 (Some 5) 100; twinFirst; twinSecond].

(** ** The interest step in binary64 *)

Module B64.
Import PrimFloat.

(** A debt with its numbers in binary64, the numbers of JavaScript. *)
Record Debt : Type := mkDebt {
  name : string;
  initialAmount : float;
  currentAmount : float;
  interestRate : option float;
  minPayment : float;
  color : string
}.

(** Truthiness of a number: every number but [0], [-0] and [NaN]. *)
Definition truthy (a : float) : bool :=
  negb (PrimFloat.eqb a 0%float || PrimFloat.is_nan a).

(** What the contract of a debt fixes: everything but the balance. *)
Definition terms (d : Debt) : string * float * option float * float * string :=
  (name d, initialAmount d, interestRate d, minPayment d, color d).

(** 1. Apply Interest, operation for operation. *)
Definition applyInterest (d : Debt) : Debt :=
  match interestRate d with
  | Some r =>
      if PrimFloat.ltb 0%float (currentAmount d) && truthy r then
        let monthlyRate :=
          PrimFloat.div (PrimFloat.div r 100%float) 12%float in
        {| name := name d;
           initialAmount := initialAmount d;
           currentAmount :=
             PrimFloat.add (currentAmount d)
               (PrimFloat.mul (currentAmount d) monthlyRate);
           interestRate := interestRate d;
           minPayment := minPayment d;
           color := color d |}
      else d
  | None => d
  end.

(** The balance the formula [balance * (annualRate / 100) / 12], read from left
    to right, would leave. *)
Definition formulaAsWritten (balance annualRate : float) : float :=
  PrimFloat.add balance
    (PrimFloat.div
       (PrimFloat.mul balance (PrimFloat.div annualRate 100%float))
       12%float).

(** A debt of 117612 at 71%. *)
Definition sample : Debt :=
  {| name := "A"; initialAmount := 117612%float; currentAmount := 117612%float;
     interestRate := Some 71%float; minPayment := 100%float;
     color := "#000000" |}.

End B64.

(** ** Facts about the primitives *)

Lemma ltb_spec (a b : Q) : JS.ltb a b = true <-> a < b.
Proof.
  unfold JS.ltb. rewrite negb_true_iff.
  split; intro H.
  - apply Qnot_le_lt. intro Hle. apply Qle_bool_iff in Hle. congruence.
  - destruct (Qle_bool b a) eqn:E; [|reflexivity].
    apply Qle_bool_iff in E. exfalso. exact (Qlt_not_le _ _ H E).
Qed.

Lemma ltb_false (a b : Q) : JS.ltb a b = false <-> b <= a.
Proof.
  unfold JS.ltb. rewrite negb_false_iff. apply Qle_bool_iff.
Qed.

Lemma gtb_spec (a b : Q) : JS.gtb a b = true <-> b < a.
Proof. apply ltb_spec. Qed.

Lemma gtb_false (a b : Q) : JS.gtb a b = false <-> a <= b.
Proof. apply ltb_false. Qed.

Lemma eqb_spec (a b : Q) : JS.eqb a b = true <-> a == b.
Proof. apply Qeq_bool_iff. Qed.

Lemma isActive_spec (d : Debt) : isActive d = true <-> 0 < currentAmount d.
Proof. apply gtb_spec. Qed.

Lemma byBalance_le (a b : Debt) :
  Qle_bool (byBalance a b) 0 = true <-> currentAmount a <= currentAmount b.
Proof.
  unfold byBalance. rewrite Qle_bool_iff.
  split; intro H.
  - apply Qle_minus_iff in H. apply Qle_minus_iff.
    setoid_replace (currentAmount b + - currentAmount a)
      with (0 + - (currentAmount a - currentAmount b)) by ring.
    exact H.
  - apply Qle_minus_iff in H. apply Qle_minus_iff.
    setoid_replace (0 + - (currentAmount a - currentAmount b))
      with (currentAmount b + - currentAmount a) by ring.
    exact H.
Qed.

Lemma byRateDesc_le (a b : Debt) :
  Qle_bool (byRateDesc a b) 0 = true <-> rate b <= rate a.
Proof.
  unfold byRateDesc, rate. rewrite Qle_bool_iff.
  set (x := JS.or_zero (interestRate a)). set (y := JS.or_zero (interestRate b)).
  split; intro H.
  - apply Qle_minus_iff in H. apply Qle_minus_iff.
    setoid_replace (x + - y) with (0 + - (y - x)) by ring. exact H.
  - apply Qle_minus_iff in H. apply Qle_minus_iff.
    setoid_replace (0 + - (y - x)) with (x + - y) by ring. exact H.
Qed.

(** Two facts in the context that order the same numbers both ways. *)
Ltac order_clash :=
  match goal with
  | H1 : ?a < ?b, H2 : ?b <= ?a |- _ => exfalso; exact (Qlt_not_le _ _ H1 H2)
  end.

(** ** Facts about [sort] *)

Section SortFacts.
Context {A : Type} (compareFn : A -> A -> Q).

Lemma place_length (x : A) (l : list A) :
  List.length (JS.place compareFn x l) = S (List.length l).
Proof.
  induction l as [|y l IH]; simpl; [reflexivity|].
  destruct (Qle_bool (compareFn x y) 0); simpl; [reflexivity|].
  now rewrite IH.
Qed.

Lemma sort_length (l : list A) :
  List.length (JS.sort compareFn l) = List.length l.
Proof.
  induction l as [|x l IH]; simpl; [reflexivity|].
  rewrite place_length. now rewrite IH.
Qed.

Lemma sort_nil (l : list A) : JS.sort compareFn l = [] -> l = [].
Proof.
  intro H. apply (f_equal (@List.length A)) in H.
  rewrite sort_length in H. now destruct l.
Qed.

Lemma place_head (x : A) (l : list A) :
  hd_error (JS.place compareFn x l) =
  match l with
  | [] => Some x
  | y :: _ => if Qle_bool (compareFn x y) 0 then Some x else Some y
  end.
Proof.
  destruct l as [|y l]; simpl; [reflexivity|].
  destruct (Qle_bool (compareFn x y) 0); reflexivity.
Qed.

(** The head of a stably sorted array is the first least element. *)
Lemma sort_head_first_least (p : A -> bool) (key : A -> Q)
    (Hkey : forall a b, Qle_bool (compareFn a b) 0 = true <-> key a <= key b)
    (l : list A) (x : A) :
  hd_error (JS.sort compareFn (filter p l)) = Some x ->
  exists i, FirstLeast p key l i x.
Proof.
  revert x. induction l as [|a l IH]; intros x Hx; simpl in Hx; [discriminate|].
  destruct (p a) eqn:Hpa.
  - simpl in Hx. rewrite place_head in Hx.
    destruct (JS.sort compareFn (filter p l)) as [|y0 srt] eqn:Hs.
    + injection Hx as <-. apply sort_nil in Hs.
      exists 0%nat, [], l. repeat split; try assumption.
      * intros y [].
      * intros y Hy Hpy.
        assert (Hin : In y (filter p l)) by (apply filter_In; auto).
        rewrite Hs in Hin. destruct Hin.
    + destruct (IH y0 eq_refl) as (i & l1 & l2 & -> & Hlen & Hp0 & Hfront & Hback).
      destruct (Qle_bool (compareFn a y0) 0) eqn:Hc; injection Hx as <-.
      * apply Hkey in Hc.
        exists 0%nat, [], (l1 ++ y0 :: l2). repeat split; try assumption.
        -- intros y [].
        -- intros y Hy Hpy. apply in_app_or in Hy.
           destruct Hy as [Hy|[<-|Hy]].
           ++ apply Qle_trans with (key y0); [exact Hc|].
              apply Qlt_le_weak. now apply Hfront.
           ++ exact Hc.
           ++ apply Qle_trans with (key y0); [exact Hc|]. now apply Hback.
      * assert (Hlt : key y0 < key a).
        { apply Qnot_le_lt. intro Hle. apply Hkey in Hle. congruence. }
        exists (S i), (a :: l1), l2. repeat split; try assumption.
        -- simpl. now rewrite Hlen.
        -- intros y [<-|Hy] Hpy; [exact Hlt|]. now apply Hfront.
  - destruct (IH x Hx) as (i & l1 & l2 & -> & Hlen & Hp0 & Hfront & Hback).
    exists (S i), (a :: l1), l2. repeat split; try assumption.
    + simpl. now rewrite Hlen.
    + intros y [<-|Hy] Hpy; [congruence|]. now apply Hfront.
Qed.
(** The array is rearranged, nothing is lost or added. *)
Lemma place_permutation (x : A) (l : list A) :
  Permutation (x :: l) (JS.place compareFn x l).
Proof.
  induction l as [|y l IH]; simpl; [apply Permutation_refl|].
  destruct (Qle_bool (compareFn x y) 0); [apply Permutation_refl|].
  eapply perm_trans; [apply perm_swap|]. now apply perm_skip.
Qed.

Lemma sort_permutation (l : list A) : Permutation l (JS.sort compareFn l).
Proof.
  induction l as [|x l IH]; simpl; [apply perm_nil|].
  eapply perm_trans; [apply perm_skip; exact IH | apply place_permutation].
Qed.

(** For a comparator that orders by a key, the result is in key order. *)
Lemma place_sorted (key : A -> Q)
    (Hkey : forall a b, Qle_bool (compareFn a b) 0 = true <-> key a <= key b)
    (x : A) (l : list A) :
  Sorted (fun a b => key a <= key b) l ->
  Sorted (fun a b => key a <= key b) (JS.place compareFn x l).
Proof.
  induction l as [|y l IH]; intro Hs; simpl.
  - constructor; constructor.
  - destruct (Qle_bool (compareFn x y) 0) eqn:Hc.
    + constructor; [exact Hs|]. constructor. now apply Hkey.
    + assert (Hyx : key y <= key x).
      { apply Qlt_le_weak, Qnot_le_lt. intro Hle. apply Hkey in Hle. congruence. }
      inversion Hs as [|? ? Hs' Hhd]; subst.
      constructor; [now apply IH|].
      destruct l as [|z l]; simpl.
      * now constructor.
      * destruct (Qle_bool (compareFn x z) 0); constructor;
          [exact Hyx | now inversion Hhd].
Qed.

Lemma sort_sorted (key : A -> Q)
    (Hkey : forall a b, Qle_bool (compareFn a b) 0 = true <-> key a <= key b)
    (l : list A) :
  Sorted (fun a b => key a <= key b) (JS.sort compareFn l).
Proof.
  induction l as [|x l IH]; simpl; [constructor|].
  now apply place_sorted with (key := key).
Qed.
End SortFacts.

Lemma sort_head_first_greatest {A : Type} (compareFn : A -> A -> Q)
    (p : A -> bool) (key : A -> Q)
    (Hkey : forall a b, Qle_bool (compareFn a b) 0 = true <-> key b <= key a)
    (l : list A) (x : A) :
  hd_error (JS.sort compareFn (filter p l)) = Some x ->
  exists i, FirstGreatest p key l i x.
Proof.
  intro Hx.
  destruct (sort_head_first_least compareFn p (fun a => - key a)) with (l := l) (x := x)
    as (i & l1 & l2 & Hl & Hlen & Hpx & Hfront & Hback).
  - intros a b. rewrite Hkey. split; intro H.
    + now apply Qopp_le_compat.
    + apply Qopp_le_compat in H. now rewrite !Qopp_involutive in H.
  - exact Hx.
  - exists i, l1, l2. repeat split; try assumption.
    + intros y Hy Hpy. specialize (Hfront y Hy Hpy). simpl in Hfront.
      apply Qopp_lt_compat in Hfront. now rewrite !Qopp_involutive in Hfront.
    + intros y Hy Hpy. specialize (Hback y Hy Hpy). simpl in Hback.
      apply Qopp_le_compat in Hback. now rewrite !Qopp_involutive in Hback.
Qed.

Lemma first_hd_error {A : Type} (fallback : A) (l : list A) :
  l <> [] -> hd_error l = Some (first fallback l).
Proof. destruct l; [congruence|reflexivity]. Qed.

(** ** Facts about references and writes through them *)

Lemma refs_from_values {A : Type} (l : list A) (n : nat) :
  map snd (combine (seq n (List.length l)) l) = l.
Proof.
  revert n. induction l as [|a l IH]; intro n; simpl; [reflexivity|].
  now rewrite IH.
Qed.

Lemma refs_from_split {A : Type} (l : list A) (n : nat)
    (r1 r2 : list (nat * A)) (i : nat) (x : A) :
  combine (seq n (List.length l)) l = r1 ++ (i, x) :: r2 ->
  i = (n + List.length r1)%nat /\ l = map snd r1 ++ x :: map snd r2.
Proof.
  revert n r1. induction l as [|a l IH]; intros n r1 H; simpl in H.
  - destruct r1; discriminate.
  - destruct r1 as [|r r1]; simpl in H.
    + injection H as Hn Ha Hr. subst. split; [simpl; lia|].
      simpl. now rewrite refs_from_values.
    + injection H as Hr H. subst r.
      destruct (IH _ _ H) as [Hi Hl]. split; [simpl; lia|].
      simpl. now rewrite <- Hl.
Qed.

Lemma refs_split {A : Type} (l : list A) (r1 r2 : list (nat * A))
    (i : nat) (x : A) :
  JS.refs l = r1 ++ (i, x) :: r2 ->
  i = List.length r1 /\ l = map snd r1 ++ x :: map snd r2.
Proof. intro H. now apply refs_from_split in H. Qed.

Lemma refs_nonempty (ds : list Debt) :
  (exists d, In d ds /\ isActive d = true) -> activeRefs ds <> [].
Proof.
  intros (d & Hin & Hact) Hnil.
  assert (Hd : In d (map snd (JS.refs ds))).
  { unfold JS.refs. now rewrite refs_from_values. }
  apply in_map_iff in Hd. destruct Hd as (r & <- & Hr).
  assert (Hf : In r (activeRefs ds)) by (apply filter_In; auto).
  rewrite Hnil in Hf. destruct Hf.
Qed.

Lemma update_middle {A : Type} (f : A -> A) (l1 l2 : list A) (x : A) :
  JS.update (List.length l1) f (l1 ++ x :: l2) = l1 ++ f x :: l2.
Proof.
  induction l1 as [|a l1 IH]; simpl; [reflexivity|]. now rewrite IH.
Qed.

Lemma update_other {A : Type} (f : A -> A) (l : list A) (i j : nat) :
  j <> i -> nth_error (JS.update i f l) j = nth_error l j.
Proof.
  revert i j. induction l as [|a l IH]; intros i j Hij; simpl.
  - now destruct i.
  - destruct i as [|i]; destruct j as [|j]; simpl; try reflexivity; try congruence.
    apply IH. congruence.
Qed.

Lemma first_among_refs {A : Type} (p : A -> bool) (key : A -> Q)
    (l : list A) (i' i : nat) (x : A) :
  FirstLeast (fun r => p (snd r)) (fun r => key (snd r)) (JS.refs l) i' (i, x) ->
  exists l1 l2, l = l1 ++ x :: l2 /\ List.length l1 = i /\ p x = true /\
    (forall y, In y l1 -> p y = true -> key x < key y) /\
    (forall y, In y l2 -> p y = true -> key x <= key y).
Proof.
  intros (r1 & r2 & Hl & _ & Hpx & Hfront & Hback).
  apply refs_split in Hl. destruct Hl as [Hi Hl].
  exists (map snd r1), (map snd r2). repeat split.
  - exact Hl.
  - now rewrite length_map.
  - exact Hpx.
  - intros y Hy Hpy. apply in_map_iff in Hy. destruct Hy as (r & <- & Hr).
    now apply (Hfront r).
  - intros y Hy Hpy. apply in_map_iff in Hy. destruct Hy as (r & <- & Hr).
    now apply (Hback r).
Qed.

(** The target of the extra payment: where it sits in [simDebts], which debt
    the strategy picks, and what the block leaves behind. *)
Lemma payExtra_target (s : StrategyType) (ds : list Debt) (budget wealth : Q) :
  JS.gtb budget 0 = true ->
  (exists d, In d ds /\ isActive d = true) ->
  exists l1 target l2,
    ds = l1 ++ target :: l2 /\ isActive target = true /\
    match s with
    | snowball =>
        (forall y, In y l1 -> isActive y = true -> currentAmount target < currentAmount y) /\
        (forall y, In y l2 -> isActive y = true -> currentAmount target <= currentAmount y)
    | avalanche =>
        (forall y, In y l1 -> isActive y = true -> rate y < rate target) /\
        (forall y, In y l2 -> isActive y = true -> rate y <= rate target)
    end /\
    payExtra s ds budget wealth =
    (l1 ++ set_currentAmount target
             (currentAmount target - JS.Math_min (currentAmount target) budget) :: l2,
     budget - JS.Math_min (currentAmount target) budget,
     wealth).
Proof.
  intros Hb Hact. apply refs_nonempty in Hact.
  unfold payExtra. rewrite Hb.
  destruct (activeRefs ds) as [|r0 rest] eqn:Hrefs; [congruence|].
  rewrite <- Hrefs.
  assert (Hne : JS.sort (strategyOrder s) (activeRefs ds) <> []).
  { intro Hnil. apply sort_nil in Hnil. congruence. }
  pose proof (first_hd_error r0 _ Hne) as Hhd.
  destruct (first r0 (JS.sort (strategyOrder s) (activeRefs ds))) as [i target].
  unfold activeRefs in Hhd. simpl fst. simpl snd.
  destruct s.
  - apply (sort_head_first_least _ _ (fun r => currentAmount (snd r))) in Hhd.
    + destruct Hhd as [i' Hfl]. apply first_among_refs in Hfl.
      destruct Hfl as (l1 & l2 & -> & <- & Hp & Hfront & Hback).
      exists l1, target, l2. rewrite update_middle. repeat split; assumption.
    + intros a b. apply byBalance_le.
  - apply (sort_head_first_greatest _ _ (fun r => rate (snd r))) in Hhd.
    + destruct Hhd as (i' & r1 & r2 & Hl & Hlen & Hpx & Hfront & Hback).
      assert (Hfl : FirstLeast (fun r => isActive (snd r))
                      (fun r => - rate (snd r)) (JS.refs ds) i' (i, target)).
      { exists r1, r2. repeat split; try assumption.
        - intros y Hy Hpy. apply Qopp_lt_compat. now apply Hfront.
        - intros y Hy Hpy. apply Qopp_le_compat. now apply Hback. }
      apply (first_among_refs isActive (fun d => - rate d)) in Hfl.
      destruct Hfl as (l1 & l2 & -> & <- & Hp & Hf & Hbk).
      exists l1, target, l2. rewrite update_middle. repeat split; try assumption.
      * intros y Hy Hpy. specialize (Hf y Hy Hpy).
        apply Qopp_lt_compat in Hf. now rewrite !Qopp_involutive in Hf.
      * intros y Hy Hpy. specialize (Hbk y Hy Hpy).
        apply Qopp_le_compat in Hbk. now rewrite !Qopp_involutive in Hbk.
    + intros a b. apply byRateDesc_le.
Qed.

Lemma FirstLeast_least {A : Type} (p : A -> bool) (key : A -> Q)
    (l : list A) (i : nat) (x : A) :
  FirstLeast p key l i x ->
  In x l /\ p x = true /\ forall y, In y l -> p y = true -> key x <= key y.
Proof.
  intros (l1 & l2 & -> & _ & Hpx & Hfront & Hback). repeat split.
  - apply in_or_app. right. now left.
  - exact Hpx.
  - intros y Hy Hpy. apply in_app_or in Hy. destruct Hy as [Hy|[<-|Hy]].
    + apply Qlt_le_weak. now apply Hfront.
    + apply Qle_refl.
    + now apply Hback.
Qed.

Lemma FirstGreatest_greatest {A : Type} (p : A -> bool) (key : A -> Q)
    (l : list A) (i : nat) (x : A) :
  FirstGreatest p key l i x ->
  In x l /\ p x = true /\ forall y, In y l -> p y = true -> key y <= key x.
Proof.
  intros (l1 & l2 & -> & _ & Hpx & Hfront & Hback). repeat split.
  - apply in_or_app. right. now left.
  - exact Hpx.
  - intros y Hy Hpy. apply in_app_or in Hy. destruct Hy as [Hy|[<-|Hy]].
    + apply Qlt_le_weak. now apply Hfront.
    + apply Qle_refl.
    + now apply Hback.
Qed.

Lemma active_filter_nonempty (debts : list Debt) :
  (exists d, In d debts /\ isActive d = true) -> filter isActive debts <> [].
Proof.
  intros (d & Hin & Hact) Hnil.
  assert (Hf : In d (filter isActive debts)) by (apply filter_In; auto).
  rewrite Hnil in Hf. destruct Hf.
Qed.

(** What [analysis] selects and what it answers. *)
Lemma analysis_picks (debts : list Debt) :
  filter isActive debts <> [] ->
  exists hi lo i j,
    FirstGreatest isActive rate debts i hi /\
    FirstLeast isActive currentAmount debts j lo /\
    analysis debts =
    Some (if JS.gtb (rate hi) 40 then
            mkAnalysis avalanche (VeryHighInterest (name hi) (rate hi)) hi lo
          else if JS.ltb (currentAmount lo) 5000 then
            mkAnalysis snowball (SmallDebt (name lo) (currentAmount lo)) hi lo
          else mkAnalysis avalanche Mathematically hi lo).
Proof.
  intro Hne. unfold analysis.
  destruct (filter isActive debts) as [|d0 rest] eqn:Hf; [congruence|].
  rewrite <- Hf.
  assert (Hhi : JS.sort byRateDesc (filter isActive debts) <> []).
  { intro Hnil. apply sort_nil in Hnil. congruence. }
  assert (Hlo : JS.sort byBalance (filter isActive debts) <> []).
  { intro Hnil. apply sort_nil in Hnil. congruence. }
  apply (first_hd_error d0) in Hhi. apply (first_hd_error d0) in Hlo.
  set (hi := first d0 (JS.sort byRateDesc (filter isActive debts))) in *.
  set (lo := first d0 (JS.sort byBalance (filter isActive debts))) in *.
  apply (sort_head_first_greatest _ _ rate) in Hhi; [|apply byRateDesc_le].
  apply (sort_head_first_least _ _ currentAmount) in Hlo; [|apply byBalance_le].
  destruct Hhi as [i Hi]. destruct Hlo as [j Hj].
  exists hi, lo, i, j. repeat split; try assumption.
  fold (rate hi).
  destruct (JS.gtb (rate hi) 40); [reflexivity|].
  destruct (JS.ltb (currentAmount lo) 5000); reflexivity.
Qed.

(** ** The strategy advisor *)

(** C5.  Whenever some debt has a positive balance, [analysis] answers, with
    [maxInterestDebt] an active debt of highest rate and [minBalanceDebt] an
    active debt of lowest balance, and its rules apply in order: a highest
    rate above 40 recommends avalanche and cites that debt and its rate;
    otherwise a lowest balance below 5000 recommends snowball and cites that
    debt and its balance; otherwise avalanche with the general justification. *)
Theorem analysis_decision_rules (debts : list Debt) :
  (exists d, In d debts /\ isActive d = true) ->
  exists r, analysis debts = Some r /\
    (In (maxInterestDebt r) debts /\ isActive (maxInterestDebt r) = true /\
     forall d, In d debts -> isActive d = true ->
       rate d <= rate (maxInterestDebt r)) /\
    (In (minBalanceDebt r) debts /\ isActive (minBalanceDebt r) = true /\
     forall d, In d debts -> isActive d = true ->
       currentAmount (minBalanceDebt r) <= currentAmount d) /\
    (40 < rate (maxInterestDebt r) ->
       recommended r = avalanche /\
       reason r = VeryHighInterest (name (maxInterestDebt r))
                    (rate (maxInterestDebt r))) /\
    (rate (maxInterestDebt r) <= 40 ->
     currentAmount (minBalanceDebt r) < 5000 ->
       recommended r = snowball /\
       reason r = SmallDebt (name (minBalanceDebt r))
                    (currentAmount (minBalanceDebt r))) /\
    (rate (maxInterestDebt r) <= 40 ->
     5000 <= currentAmount (minBalanceDebt r) ->
       recommended r = avalanche /\ reason r = Mathematically).
Proof.
  intro Hact. apply active_filter_nonempty in Hact.
  destruct (analysis_picks debts Hact) as (hi & lo & i & j & Hhi & Hlo & Ha).
  apply FirstGreatest_greatest in Hhi. apply FirstLeast_least in Hlo.
  eexists. split; [exact Ha|].
  destruct (JS.gtb (rate hi) 40) eqn:E1;
    [apply gtb_spec in E1
    |apply gtb_false in E1;
     destruct (JS.ltb (currentAmount lo) 5000) eqn:E2;
     [apply ltb_spec in E2 | apply ltb_false in E2]];
    simpl; repeat split; intros; try tauto; try order_clash;
    solve [now apply Hhi | now apply Hlo].
Qed.

Lemma analysis_decision_rules_witness :
  (exists d, In d scenarioB /\ isActive d = true) /\
  exists r, analysis scenarioB = Some r /\
    recommended r = avalanche /\ reason r = VeryHighInterest "A" 60.
Proof.
  assert (Hact : exists d, In d scenarioB /\ isActive d = true).
  { exists debtA. split; [left; reflexivity | reflexivity]. }
  split; [exact Hact|].
  destruct (analysis_decision_rules scenarioB Hact)
    as (r & Ha & _ & _ & Hrule & _).
  exists r. split; [exact Ha|].
  vm_compute in Ha. injection Ha as <-. apply Hrule. reflexivity.
Defined.

Lemma rate_annualRate (d : Debt) : rate d == annualRate d.
Proof.
  unfold rate, annualRate, JS.or_zero.
  destruct (interestRate d) as [r|]; [|reflexivity].
  destruct (JS.truthy r) eqn:Ht; [reflexivity|].
  unfold JS.truthy in Ht. apply negb_false_iff in Ht.
  apply Qeq_bool_iff in Ht. now rewrite Ht.
Qed.

Lemma FirstGreatest_annualRate (l : list Debt) (i : nat) (x : Debt) :
  FirstGreatest isActive rate l i x -> FirstGreatest isActive annualRate l i x.
Proof.
  intros (l1 & l2 & Hl & Hlen & Hp & Hfront & Hback).
  exists l1, l2. repeat split; try assumption.
  - intros y Hy Hpy. rewrite <- !rate_annualRate. now apply Hfront.
  - intros y Hy Hpy. rewrite <- !rate_annualRate. now apply Hback.
Qed.

(** C8.  Ties go to the first occurrence.  The [maxInterestDebt] of the
    advisor is the first active debt of the input list with the highest rate,
    a debt without a rate counting for 0: no active debt in front of it has a
    rate as high, none behind it a higher one.  Its [minBalanceDebt] is the
    first active debt with the lowest balance.  The target of the engine's
    extra payment is chosen by the same rule among [simDebts], and it is the
    debt whose balance the block brings down. *)
Theorem ties_go_to_first_occurrence :
  (forall debts r, analysis debts = Some r ->
     (exists i, FirstGreatest isActive annualRate debts i (maxInterestDebt r)) /\
     (exists j, FirstLeast isActive currentAmount debts j (minBalanceDebt r)))
  /\
  (forall s ds budget wealth,
     JS.gtb budget 0 = true ->
     (exists d, In d ds /\ isActive d = true) ->
     exists i target paid,
       match s with
       | snowball => FirstLeast isActive currentAmount ds i target
       | avalanche => FirstGreatest isActive annualRate ds i target
       end /\
       nth_error (fst (fst (payExtra s ds budget wealth))) i = Some paid /\
       currentAmount paid =
         currentAmount target - JS.Math_min (currentAmount target) budget /\
       forall j, j <> i ->
         nth_error (fst (fst (payExtra s ds budget wealth))) j = nth_error ds j).
Proof.
  split.
  - intros debts r Ha.
    destruct (filter isActive debts) as [|d0 rest] eqn:Hf.
    + unfold analysis in Ha. rewrite Hf in Ha. discriminate.
    + assert (Hne : filter isActive debts <> []) by congruence.
      destruct (analysis_picks debts Hne) as (hi & lo & i & j & Hhi & Hlo & Hr).
      apply FirstGreatest_annualRate in Hhi.
      rewrite Hr in Ha. injection Ha as <-.
      destruct (JS.gtb (rate hi) 40); [|destruct (JS.ltb (currentAmount lo) 5000)];
        simpl; eauto.
  - intros s ds budget wealth Hb Hact.
    destruct (payExtra_target s ds budget wealth Hb Hact)
      as (l1 & target & l2 & Hds & Hp & Hsel & Hres).
    exists (List.length l1), target,
      (set_currentAmount target
         (currentAmount target - JS.Math_min (currentAmount target) budget)).
    rewrite Hres. simpl. split; [|split; [|split]].
    + destruct s.
      * exists l1, l2. tauto.
      * apply FirstGreatest_annualRate. exists l1, l2. tauto.
    + now rewrite nth_error_app2, Nat.sub_diag by lia.
    + reflexivity.
    + intros j Hj. subst ds.
      rewrite <- (update_middle
        (fun d => set_currentAmount d
           (currentAmount d - JS.Math_min (currentAmount target) budget)) l1 l2 target).
      now apply update_other.
Qed.

Lemma ties_go_to_first_occurrence_witness :
  (exists r, analysis tiesBehindAnother = Some r /\
     maxInterestDebt r = twinFirst /\ minBalanceDebt r = twinFirst /\
     (exists i, FirstGreatest isActive annualRate tiesBehindAnother i
                  (maxInterestDebt r)) /\
     (exists j, FirstLeast isActive currentAmount tiesBehindAnother j
                  (minBalanceDebt r)))
  /\
  (JS.gtb 300 0 = true /\
   (exists d, In d tiesBehindAnother /\ isActive d = true) /\
   map currentAmount (fst (fst (payExtra avalanche tiesBehindAnother 300 0)))
     = [9000; 7700; 8000] /\
   exists i target paid,
     FirstGreatest isActive annualRate tiesBehindAnother i target /\
     nth_error (fst (fst (payExtra avalanche tiesBehindAnother 300 0))) i
       = Some paid /\
     currentAmount paid =
       currentAmount target - JS.Math_min (currentAmount target) 300).
Proof.
  split.
  - eexists. split; [vm_compute; reflexivity|].
    split; [reflexivity|]. split; [reflexivity|].
    apply (proj1 ties_go_to_first_occurrence tiesBehindAnother).
    vm_compute. reflexivity.
  - assert (Hact : exists d, In d tiesBehindAnother /\ isActive d = true).
    { exists twinFirst. split; [right; left; reflexivity | reflexivity]. }
    split; [reflexivity|]. split; [exact Hact|].
    split; [vm_compute; reflexivity|].
    destruct (proj2 ties_go_to_first_occurrence avalanche tiesBehindAnother
                300 0 eq_refl Hact) as (i & target & paid & Hsel & Hnth & Hbal & _).
    exists i, target, paid. repeat split; assumption.
Defined.

(** ** The extra payment *)

(** C4.  In a month with budget left after the minimums and some debt with a
    positive balance, one debt, the target, is paid
    [min(target balance, leftover budget)]: its balance after the block is its
    balance before less that payment, the rest of it is untouched, and every
    other debt keeps its balance.  The target is the active debt of smallest
    balance under snowball and of highest rate under avalanche; the budget
    goes down by the payment and nothing goes to wealth in this block. *)
Theorem extra_payment_goes_to_one_target (s : StrategyType) (ds : list Debt)
    (budget wealth : Q) :
  JS.gtb budget 0 = true ->
  (exists d, In d ds /\ isActive d = true) ->
  exists i target paid,
    nth_error ds i = Some target /\ isActive target = true /\
    (forall d, In d ds -> isActive d = true ->
       match s with
       | snowball => currentAmount target <= currentAmount d
       | avalanche => annualRate d <= annualRate target
       end) /\
    let extraPayment := JS.Math_min (currentAmount target) budget in
    let ds' := fst (fst (payExtra s ds budget wealth)) in
    nth_error ds' i = Some paid /\
    currentAmount paid = currentAmount target - extraPayment /\
    terms paid = terms target /\
    (forall j, j <> i -> nth_error ds' j = nth_error ds j) /\
    List.length ds' = List.length ds /\
    snd (fst (payExtra s ds budget wealth)) = budget - extraPayment /\
    snd (payExtra s ds budget wealth) = wealth.
Proof.
  intros Hb Hact.
  destruct (payExtra_target s ds budget wealth Hb Hact)
    as (l1 & target & l2 & Hds & Hp & Hsel & Hres).
  exists (List.length l1), target,
    (set_currentAmount target
       (currentAmount target - JS.Math_min (currentAmount target) budget)).
  subst ds.
  split; [now rewrite nth_error_app2, Nat.sub_diag by lia|].
  split; [exact Hp|]. split.
  - intros d Hd Hpd. apply in_app_or in Hd.
    destruct s; destruct Hsel as [Hfront Hback];
      rewrite <- ?rate_annualRate;
      destruct Hd as [Hd|[<-|Hd]];
      solve [apply Qlt_le_weak; now apply Hfront | apply Qle_refl | now apply Hback].
  - rewrite Hres. simpl. repeat split.
    + now rewrite nth_error_app2, Nat.sub_diag by lia.
    + intros j Hj.
      rewrite <- (update_middle
        (fun d => set_currentAmount d
           (currentAmount d - JS.Math_min (currentAmount target) budget)) l1 l2 target).
      now apply update_other.
    + rewrite !length_app. reflexivity.
Qed.

Lemma extra_payment_goes_to_one_target_witness :
  JS.gtb 200 0 = true /\
  (exists d, In d [debt "A" 950 (Some 60) 100; debt "B" 4900 (Some 10) 100]
             /\ isActive d = true) /\
  map currentAmount
    (fst (fst (payExtra avalanche
                 [debt "A" 950 (Some 60) 100; debt "B" 4900 (Some 10) 100]
                 200 0)))
    = [750; 4900] /\
  exists i target paid,
    nth_error [debt "A" 950 (Some 60) 100; debt "B" 4900 (Some 10) 100] i
      = Some target /\
    nth_error
      (fst (fst (payExtra avalanche
                   [debt "A" 950 (Some 60) 100; debt "B" 4900 (Some 10) 100]
                   200 0))) i
      = Some paid /\
    currentAmount paid =
      currentAmount target - JS.Math_min (currentAmount target) 200.
Proof.
  assert (Hact : exists d, In d [debt "A" 950 (Some 60) 100;
                                debt "B" 4900 (Some 10) 100]
                           /\ isActive d = true).
  { eexists. split; [left; reflexivity | reflexivity]. }
  split; [reflexivity|]. split; [exact Hact|].
  split; [vm_compute; reflexivity|].
  destruct (extra_payment_goes_to_one_target avalanche _ 200 0 eq_refl Hact)
    as (i & target & paid & Hnth & _ & _ & Hpaid & Hbal & _).
  exists i, target, paid. repeat split; assumption.
Defined.

(** ** Interest *)

Lemma positive_is_truthy (r : Q) : 0 < r -> JS.truthy r = true.
Proof.
  intro Hpos. unfold JS.truthy. apply negb_true_iff.
  destruct (Qeq_bool r 0) eqn:E; [|reflexivity].
  apply Qeq_bool_iff in E. rewrite E in Hpos.
  exfalso. exact (Qlt_irrefl _ Hpos).
Qed.

Section InterestInBothArithmetics.
Import PrimFloat.

(** In binary64 a number above 0 is neither [0] nor [NaN]. *)
Lemma positive_is_truthy_in_binary64 (r : PrimFloat.float) :
  PrimFloat.ltb 0%float r = true -> B64.truthy r = true.
Proof.
  unfold B64.truthy, PrimFloat.is_nan.
  rewrite FloatAxioms.ltb_spec, !FloatAxioms.eqb_spec.
  change (FloatOps.Prim2SF 0%float) with (SpecFloat.S754_zero false).
  destruct (FloatOps.Prim2SF r) as [sg|sg| |sg m e]; simpl;
    try discriminate; try reflexivity.
  - destruct sg; [discriminate|]. intros _. reflexivity.
  - destruct sg; [discriminate|]. intros _.
    unfold SpecFloat.SFeqb, SpecFloat.SFcompare.
    now rewrite Z.compare_refl, Pos.compare_refl.
Qed.

(** C6, amended on the order of the operations.  The interest step adds
    [balance * ((rate / 100) / 12)] to a debt with a positive balance and a
    positive rate: the monthly rate is computed first and then multiplied by
    the balance, each operation in the arithmetic of the code.  A debt without
    a rate or with a zero rate is left as it is, no other field is touched,
    and the payments of the month are taken from the balances that carry this
    interest.  The first two parts are about the step in binary64, the next
    two about the step in exact arithmetic, the last about the month. *)
Theorem interest_accrues_before_payments :
  (forall (d : B64.Debt) (r : PrimFloat.float),
     PrimFloat.ltb 0%float (B64.currentAmount d) = true ->
     B64.interestRate d = Some r ->
     PrimFloat.ltb 0%float r = true ->
     B64.currentAmount (B64.applyInterest d) =
       PrimFloat.add (B64.currentAmount d)
         (PrimFloat.mul (B64.currentAmount d)
            (PrimFloat.div (PrimFloat.div r 100%float) 12%float)) /\
     B64.terms (B64.applyInterest d) = B64.terms d) /\
  (forall (d : B64.Debt),
     B64.interestRate d = None \/ B64.interestRate d = Some 0%float ->
     B64.applyInterest d = d) /\
  (forall (d : Debt) (r : Q),
     0 < currentAmount d -> interestRate d = Some r -> 0 < r ->
     currentAmount (applyInterest d) =
       currentAmount d + currentAmount d * ((r / 100) / 12) /\
     terms (applyInterest d) = terms d) /\
  (forall (d : Debt),
     interestRate d = None \/ (exists r, interestRate d = Some r /\ r == 0) ->
     applyInterest d = d) /\
  (forall capacity s st,
     let withInterest := map applyInterest (simDebts st) in
     let afterMinimums := payMinimums withInterest capacity in
     simDebts (simulateMonth capacity s st) =
     fst (fst (payExtra s (fst afterMinimums) (snd afterMinimums)
                 (accumulatedWealth st)))).
Proof.
  split; [|split; [|split; [|split]]].
  - intros d r Hpos Hr Hrpos. unfold B64.applyInterest.
    rewrite Hr, Hpos, (positive_is_truthy_in_binary64 r Hrpos). simpl.
    unfold B64.terms. simpl. now rewrite Hr.
  - intros d [Hnone|Hzero]; unfold B64.applyInterest.
    + now rewrite Hnone.
    + rewrite Hzero.
      assert (Hfalse : B64.truthy 0%float = false) by (vm_compute; reflexivity).
      now rewrite Hfalse, andb_false_r.
  - intros d r Hpos Hr Hrpos. unfold applyInterest.
    apply gtb_spec in Hpos.
    rewrite Hr, Hpos, (positive_is_truthy r Hrpos). simpl.
    unfold terms. simpl. now rewrite Hr.
  - intros d [Hnone|(r & Hr & Hz)]; unfold applyInterest.
    + now rewrite Hnone.
    + rewrite Hr. unfold JS.truthy.
      apply Qeq_bool_iff in Hz. rewrite Hz. simpl. now rewrite andb_false_r.
  - intros capacity s st. simpl. unfold simulateMonth.
    destruct (payMinimums _ _) as [ds2 b2]. simpl.
    destruct (payExtra _ _ _ _) as [[ds3 b3] w3]. reflexivity.
Qed.

Lemma interest_accrues_before_payments_witness :
  (PrimFloat.ltb 0%float (B64.currentAmount B64.sample) = true /\
   B64.interestRate B64.sample = Some 71%float /\
   PrimFloat.ltb 0%float 71%float = true /\
   B64.currentAmount (B64.applyInterest B64.sample) = 0x1.e69ab5c28f5c3p+16%float) /\
  (0 < currentAmount debtA /\ interestRate debtA = Some 60 /\ 0 < 60 /\
   currentAmount (applyInterest debtA) == 1050) /\
  ((interestRate (debt "C" 1000 None 100) = None \/
    exists r, interestRate (debt "C" 1000 None 100) = Some r /\ r == 0) /\
   applyInterest (debt "C" 1000 None 100) = debt "C" 1000 None 100).
Proof.
  split; [|split].
  - assert (Hpos : PrimFloat.ltb 0%float (B64.currentAmount B64.sample) = true)
      by reflexivity.
    assert (Hr : PrimFloat.ltb 0%float 71%float = true) by reflexivity.
    split; [exact Hpos|]. split; [reflexivity|]. split; [exact Hr|].
    rewrite (proj1 (proj1 interest_accrues_before_payments
                      B64.sample 71%float Hpos eq_refl Hr)).
    vm_compute. reflexivity.
  - assert (Hpos : 0 < currentAmount debtA) by reflexivity.
    assert (Hr : 0 < 60) by reflexivity.
    split; [exact Hpos|]. split; [reflexivity|]. split; [exact Hr|].
    rewrite (proj1 (proj1 (proj2 (proj2 interest_accrues_before_payments))
                      debtA 60 Hpos eq_refl Hr)).
    reflexivity.
  - assert (Hnone : interestRate (debt "C" 1000 None 100) = None \/
                    exists r, interestRate (debt "C" 1000 None 100) = Some r /\ r == 0)
      by (left; reflexivity).
    split; [exact Hnone|].
    exact (proj1 (proj2 (proj2 (proj2 interest_accrues_before_payments)))
             _ Hnone).
Defined.

(** C6 as stated does not hold in the arithmetic of the code: on a balance
    of 117612 at 71% the step leaves 124570.71000000001
    ([0x1.e69ab5c28f5c3p+16]), and the formula
    [balance * (annualRate / 100) / 12] read from left to right would leave
    124570.70999999999 ([0x1.e69ab5c28f5c2p+16]). *)
Lemma interest_formula_differs_in_binary64 :
  B64.currentAmount (B64.applyInterest B64.sample) = 0x1.e69ab5c28f5c3p+16%float /\
  B64.formulaAsWritten 117612%float 71%float = 0x1.e69ab5c28f5c2p+16%float /\
  PrimFloat.eqb (B64.currentAmount (B64.applyInterest B64.sample))
    (B64.formulaAsWritten 117612%float 71%float) = false.
Proof. repeat split; vm_compute; reflexivity. Qed.

End InterestInBothArithmetics.

(** ** The minimum payments *)

Lemma payMinimums_debts (ds : list Debt) (budget : Q) :
  fst (payMinimums ds budget) =
  map (fun d => if isActive d
                then set_currentAmount d (currentAmount d - minimumPaid d)
                else d) ds.
Proof.
  revert budget. induction ds as [|d ds IH]; intro budget; simpl; [reflexivity|].
  unfold minimumPaid at 1. fold (isActive d).
  destruct (isActive d).
  - specialize (IH (budget - JS.Math_min (currentAmount d) (minPayment d))).
    destruct (payMinimums ds _) as [rest' b']. simpl in *. now rewrite IH.
  - specialize (IH budget).
    destruct (payMinimums ds _) as [rest' b']. simpl in *. now rewrite IH.
Qed.

Lemma payMinimums_budget (ds : list Debt) (budget : Q) :
  snd (payMinimums ds budget) == budget - minimumsPaid ds.
Proof.
  revert budget. induction ds as [|d ds IH]; intro budget; simpl; [lra|].
  unfold minimumPaid. fold (isActive d).
  destruct (isActive d).
  - specialize (IH (budget - JS.Math_min (currentAmount d) (minPayment d))).
    destruct (payMinimums ds _) as [rest' b']. simpl in *. lra.
  - specialize (IH budget).
    destruct (payMinimums ds _) as [rest' b']. simpl in *. lra.
Qed.

(** The pass over [l1 ++ l2] is the pass over [l1] followed by the pass over
    [l2] with the budget the first leaves: the budget after the first [k]
    debts is the one [payMinimums (firstn k ds)] returns. *)
Lemma payMinimums_app (l1 l2 : list Debt) (budget : Q) :
  payMinimums (l1 ++ l2) budget =
  (fst (payMinimums l1 budget) ++
     fst (payMinimums l2 (snd (payMinimums l1 budget))),
   snd (payMinimums l2 (snd (payMinimums l1 budget)))).
Proof.
  revert budget. induction l1 as [|d l1 IH]; intro budget; simpl.
  - now destruct (payMinimums l2 budget).
  - destruct (JS.gtb (currentAmount d) 0).
    + rewrite IH. destruct (payMinimums l1 _) as [r1 b1]. reflexivity.
    + rewrite IH. destruct (payMinimums l1 _) as [r1 b1]. reflexivity.
Qed.

Lemma minimumPaid_bounds (d : Debt) :
  0 <= minPayment d ->
  0 <= minimumPaid d /\
  minimumPaid d <= (if isActive d then minPayment d else 0).
Proof.
  intro Hmin. unfold minimumPaid, JS.Math_min.
  destruct (isActive d) eqn:Hact; [|split; apply Qle_refl].
  apply isActive_spec in Hact. split.
  - apply Q.min_glb; [now apply Qlt_le_weak | exact Hmin].
  - apply Q.le_min_r.
Qed.

Lemma minimumsPaid_prefix (ds : list Debt) (k : nat) :
  (forall d, In d ds -> 0 <= minPayment d) ->
  0 <= minimumsPaid (firstn k ds) /\
  minimumsPaid (firstn k ds) <= minimumsPaid ds /\
  minimumsPaid ds <= minimumsDue ds.
Proof.
  revert k. induction ds as [|d ds IH]; intros k Hmin.
  - rewrite firstn_nil. simpl. repeat split; apply Qle_refl.
  - assert (Hd : 0 <= minPayment d) by (apply Hmin; now left).
    assert (Hds : forall d', In d' ds -> 0 <= minPayment d')
      by (intros d' H'; apply Hmin; now right).
    destruct (minimumPaid_bounds d Hd) as [H0 H1].
    destruct k as [|k]; simpl.
    + destruct (IH 0%nat Hds) as (_ & Hle & Hdue). simpl in Hle.
      repeat split; lra.
    + destruct (IH k Hds) as (Hpos & Hle & Hdue). repeat split; lra.
Qed.

Lemma payMinimums_charged (ds : list Debt) (budget : Q) :
  snd (payMinimums ds budget) = chargedBudget ds budget.
Proof.
  unfold chargedBudget.
  revert budget. induction ds as [|d ds IH]; intro budget; simpl; [reflexivity|].
  destruct (JS.gtb (currentAmount d) 0).
  - rewrite <- IH. now destruct (payMinimums ds _).
  - rewrite <- IH. now destruct (payMinimums ds _).
Qed.

(** C3, amended to what the pass does.  The minimum pass does not look at the
    budget.  Every debt with a positive balance is paid
    [min(balance, minPayment)]: its balance after the pass is its balance
    before less that payment, never below 0, and the rest of it is untouched;
    the other debts are left as they are; and the debts after the pass are the
    same whatever the budget.  The budget is charged each payment in turn, so
    that behind any run of debts it is what those debts took from it,
    with nothing to stop it at 0, and the pass goes on from there. *)
Theorem minimum_pass_charges_every_active_debt (ds : list Debt) (budget : Q) :
  List.length (fst (payMinimums ds budget)) = List.length ds /\
  (forall i d, nth_error ds i = Some d ->
     exists d',
       nth_error (fst (payMinimums ds budget)) i = Some d' /\
       terms d' = terms d /\
       currentAmount d' =
         (if isActive d
          then currentAmount d - JS.Math_min (currentAmount d) (minPayment d)
          else currentAmount d) /\
       (isActive d = true -> 0 <= currentAmount d')) /\
  (forall other, fst (payMinimums ds other) = fst (payMinimums ds budget)) /\
  (forall k,
     snd (payMinimums (firstn k ds) budget) = chargedBudget (firstn k ds) budget /\
     snd (payMinimums ds budget) =
       snd (payMinimums (skipn k ds) (snd (payMinimums (firstn k ds) budget)))).
Proof.
  split; [|split; [|split]].
  - now rewrite payMinimums_debts, length_map.
  - intros i d Hd. rewrite payMinimums_debts, nth_error_map, Hd. simpl.
    eexists. split; [reflexivity|].
    unfold minimumPaid. destruct (isActive d) eqn:Hact; simpl.
    + repeat split. intros _.
      pose proof (Q.le_min_l (currentAmount d) (minPayment d)) as Hle.
      unfold JS.Math_min. lra.
    + repeat split. discriminate.
  - intro other. now rewrite !payMinimums_debts.
  - intro k. split; [apply payMinimums_charged|].
    rewrite <- (firstn_skipn k ds) at 1. now rewrite payMinimums_app.
Qed.

Lemma minimum_pass_charges_every_active_debt_witness :
  nth_error [debt "A" 1000 None 500; debt "B" 1000 None 500] 1
    = Some (debt "B" 1000 None 500) /\
  (exists d',
     nth_error (fst (payMinimums [debt "A" 1000 None 500; debt "B" 1000 None 500]
                       300)) 1 = Some d' /\
     currentAmount d' == 500) /\
  snd (payMinimums (firstn 1 [debt "A" 1000 None 500; debt "B" 1000 None 500]) 300)
    == - (200).
Proof.
  pose proof (minimum_pass_charges_every_active_debt
                [debt "A" 1000 None 500; debt "B" 1000 None 500] 300)
    as (_ & Hpaid & _ & Hrun).
  split; [reflexivity|]. split.
  - destruct (Hpaid 1%nat (debt "B" 1000 None 500) eq_refl)
      as (d' & Hnth & _ & Hbal & _).
    exists d'. split; [exact Hnth|]. rewrite Hbal. reflexivity.
  - rewrite (proj1 (Hrun 1%nat)). reflexivity.
Defined.

(** C3 as stated does not hold: two debts of 1000 with a minimum of 500
    each and a budget of 300.  Both are paid 500: 1000 is taken against a
    budget of 300, the budget is at -200 after the first debt and at -700 after
    the second, and the second debt is paid in full measure although nothing
    was left. *)
Lemma minimum_pass_overdraws_the_budget :
  let ds := [debt "A" 1000 None 500; debt "B" 1000 None 500] in
  let after := payMinimums ds 300 in
  ~ (sumCurrentAmount ds - sumCurrentAmount (fst after) <= 300) /\
  ~ (0 <= snd after) /\
  snd (payMinimums (firstn 1 ds) 300) == - (200) /\
  snd after == - (700) /\
  map currentAmount (fst after) = [500; 500].
Proof.
  simpl. repeat split; try (intro H; vm_compute in H; congruence);
    vm_compute; reflexivity.
Qed.

(** ** The simulation loop *)

Lemma simulate_step (capacity : Q) (s : StrategyType) (st : SimState) :
  simulate capacity s st =
  if loopCondition st then simulate capacity s (simulateMonth capacity s st)
  else st.
Proof.
  rewrite simulate_equation_1. unfold Equations.Prop.Logic.inspect.
  generalize (@eq_refl bool (loopCondition st)).
  generalize (loopCondition st) at 2 4 5.
  intros [] e; reflexivity.
Qed.

Lemma simulateMonth_shape (capacity : Q) (s : StrategyType) (st : SimState) :
  month (simulateMonth capacity s st) = S (month st) /\
  currentTotalDebt (simulateMonth capacity s st) =
    sumCurrentAmount (simDebts (simulateMonth capacity s st)) /\
  projectionData (simulateMonth capacity s st) =
    projectionData st ++ [emitted (simulateMonth capacity s st)].
Proof.
  unfold emitted, simulateMonth.
  destruct (payMinimums _ _) as [ds2 b2].
  destruct (payExtra _ _ _ _) as [[ds3 b3] w3].
  repeat split.
Qed.

Lemma afterMonths_succ_r (capacity : Q) (s : StrategyType) (k : nat)
    (st : SimState) :
  afterMonths capacity s (S k) st =
  afterMonths capacity s k (simulateMonth capacity s st).
Proof. unfold afterMonths. apply Nat.iter_succ_r. Qed.

Lemma afterMonths_month (capacity : Q) (s : StrategyType) (k : nat)
    (st : SimState) :
  month (afterMonths capacity s k st) = (month st + k)%nat.
Proof.
  induction k as [|k IH]; simpl; [lia|].
  destruct (simulateMonth_shape capacity s (afterMonths capacity s k st)) as [Hm _].
  unfold afterMonths in *. rewrite Hm, IH. lia.
Qed.

Lemma afterMonths_points (capacity : Q) (s : StrategyType) (n : nat)
    (st : SimState) :
  projectionData (afterMonths capacity s n st) =
  projectionData st ++
  map (fun k => emitted (afterMonths capacity s k st)) (seq 1 n).
Proof.
  induction n as [|n IH]; [simpl; now rewrite app_nil_r|].
  destruct (simulateMonth_shape capacity s (afterMonths capacity s n st))
    as (_ & _ & Hp).
  rewrite seq_S, map_app, app_assoc, <- IH.
  change (afterMonths capacity s (S n) st)
    with (simulateMonth capacity s (afterMonths capacity s n st)).
  rewrite Hp. reflexivity.
Qed.

(** The loop stops at the first state that fails its condition. *)
Lemma simulate_runs (capacity : Q) (s : StrategyType) (m : nat) :
  forall st, (maxMonths - month st <= m)%nat ->
  exists n,
    simulate capacity s st = afterMonths capacity s n st /\
    (forall k, (k < n)%nat ->
       loopCondition (afterMonths capacity s k st) = true) /\
    loopCondition (afterMonths capacity s n st) = false.
Proof.
  induction m as [|m IH]; intros st Hm; rewrite simulate_step;
    destruct (loopCondition st) eqn:Hc.
  - unfold loopCondition in Hc. apply andb_prop in Hc. destruct Hc as [_ Hlt].
    apply Nat.ltb_lt in Hlt. lia.
  - exists 0%nat. repeat split; [intros k Hk; lia | exact Hc].
  - destruct (IH (simulateMonth capacity s st)) as (n & Hrun & Hbefore & Hstop).
    { destruct (simulateMonth_shape capacity s st) as [Hmonth _].
      rewrite Hmonth. lia. }
    exists (S n). rewrite afterMonths_succ_r. repeat split; try assumption.
    intros [|k] Hk; [exact Hc|].
    rewrite afterMonths_succ_r. apply Hbefore. lia.
  - exists 0%nat. repeat split; [intros k Hk; lia | exact Hc].
Qed.

Lemma loop_runs_upto (capacity : Q) (s : StrategyType) (debts : list Debt)
    (totalDebt : Q) :
  exists n,
    simulate capacity s (initialState debts totalDebt) =
    afterMonths capacity s n (initialState debts totalDebt).
Proof.
  destruct (simulate_runs capacity s maxMonths (initialState debts totalDebt))
    as (n & Hrun & _); [apply Nat.le_sub_l|].
  now exists n.
Qed.

(** C7.  From the state before the loop, the loop simulates [n] months, where
    [n] is the first count of months after which
    [(currentTotalDebt > 0 || month < 12) && month < 60] fails: after each
    smaller count the total is positive or fewer than 12 months have run, and
    fewer than 60 have; after [n] this is no longer so.  The total the test
    reads is the one the loop starts with and then the sum of the balances at
    the end of each month.  [n] is at least 12 and at most 60, the loop leaves
    one point per month behind the seed, and a run that stops short of 60
    months has no debt left. *)
Theorem loop_runs_while_its_condition_holds (capacity : Q) (s : StrategyType)
    (debts : list Debt) (totalDebt : Q) :
  exists n,
    simulate capacity s (initialState debts totalDebt) =
      afterMonths capacity s n (initialState debts totalDebt) /\
    (forall k, (k < n)%nat ->
       (0 < currentTotalDebt
              (afterMonths capacity s k (initialState debts totalDebt))
        \/ (k < 12)%nat) /\ (k < 60)%nat) /\
    ~ ((0 < currentTotalDebt
              (afterMonths capacity s n (initialState debts totalDebt))
        \/ (n < 12)%nat) /\ (n < 60)%nat) /\
    currentTotalDebt (afterMonths capacity s 0 (initialState debts totalDebt))
      = totalDebt /\
    (forall k,
       currentTotalDebt
         (afterMonths capacity s (S k) (initialState debts totalDebt)) =
       sumCurrentAmount
         (simDebts (afterMonths capacity s (S k) (initialState debts totalDebt)))) /\
    (12 <= n <= 60)%nat /\
    month (simulate capacity s (initialState debts totalDebt)) = n /\
    List.length (projectionData (simulate capacity s (initialState debts totalDebt)))
      = S n /\
    ((n < 60)%nat ->
     currentTotalDebt (simulate capacity s (initialState debts totalDebt)) <= 0).
Proof.
  set (st0 := initialState debts totalDebt).
  destruct (simulate_runs capacity s maxMonths st0) as (n & Hrun & Hbefore & Hstop);
    [apply Nat.le_sub_l|].
  assert (Hcond : forall k,
            loopCondition (afterMonths capacity s k st0) = true <->
            (0 < currentTotalDebt (afterMonths capacity s k st0) \/ (k < 12)%nat)
            /\ (k < 60)%nat).
  { intro k. unfold loopCondition. rewrite afterMonths_month.
    change (month st0 + k)%nat with k.
    rewrite andb_true_iff, orb_true_iff, gtb_spec, !Nat.ltb_lt.
    unfold maxMonths. tauto. }
  exists n. rewrite Hrun.
  assert (Hmonth : month (afterMonths capacity s n st0) = n)
    by (rewrite afterMonths_month; reflexivity).
  assert (Hnot : ~ ((0 < currentTotalDebt (afterMonths capacity s n st0)
                     \/ (n < 12)%nat) /\ (n < 60)%nat)).
  { intro H. apply Hcond in H. congruence. }
  assert (Hupper : (n <= 60)%nat).
  { destruct n as [|n]; [lia|].
    destruct (proj1 (Hcond n) (Hbefore n (Nat.lt_succ_diag_r n))) as [_ Hlt]. lia. }
  split; [reflexivity|].
  split; [intros k Hk; apply Hcond, Hbefore, Hk|].
  split; [exact Hnot|].
  split; [reflexivity|].
  split.
  { intro k.
    destruct (simulateMonth_shape capacity s (afterMonths capacity s k st0))
      as (_ & Htotal & _).
    exact Htotal. }
  split.
  { split; [|exact Hupper].
    destruct (Nat.lt_ge_cases n 12) as [Hlt|Hge]; [|exact Hge].
    exfalso. apply Hnot. split; [now right | lia]. }
  split; [exact Hmonth|].
  split.
  { rewrite afterMonths_points, length_app, length_map, length_seq.
    reflexivity. }
  intro Hlt.
  destruct (Qlt_le_dec 0 (currentTotalDebt (afterMonths capacity s n st0)))
    as [Hpos|Hle]; [|exact Hle].
  exfalso. apply Hnot. split; [now left | exact Hlt].
Qed.

Lemma loop_runs_while_its_condition_holds_witness :
  month (simulate 100 avalanche (initialState [debt "A" 100 (Some 0) 100] 100))
    = 12%nat /\
  month (simulate 100 snowball
           (initialState [debt "A" 100000 (Some 0) 100] 100000)) = 60%nat /\
  exists n,
    simulate 100 avalanche (initialState [debt "A" 2000 (Some 0) 100] 2000) =
      afterMonths 100 avalanche n
        (initialState [debt "A" 2000 (Some 0) 100] 2000) /\
    n = 20%nat /\
    0 < currentTotalDebt
          (afterMonths 100 avalanche 19
             (initialState [debt "A" 2000 (Some 0) 100] 2000)) /\
    ~ ((0 < currentTotalDebt
              (afterMonths 100 avalanche n
                 (initialState [debt "A" 2000 (Some 0) 100] 2000))
        \/ (n < 12)%nat) /\ (n < 60)%nat).
Proof.
  split; [vm_compute; reflexivity|].
  split; [vm_compute; reflexivity|].
  destruct (loop_runs_while_its_condition_holds 100 avalanche
              [debt "A" 2000 (Some 0) 100] 2000)
    as (n & Hrun & Hbefore & Hstop & _ & _ & _ & Hmonth & _).
  assert (Hn : n = 20%nat).
  { rewrite <- Hmonth. vm_compute. reflexivity. }
  exists n. split; [exact Hrun|]. split; [exact Hn|]. split; [|exact Hstop].
  assert (H19 : (19 < n)%nat) by (clear - Hn; lia).
  destruct (Hbefore 19%nat H19) as [[Hpos|Hlt] _]; [exact Hpos|].
  exfalso. clear - Hlt. lia.
Defined.

(** ** The points of the projection *)

(** C9, amended on the seed.  Behind the seed, the point of month [k] carries
    the sum of the balances at the end of that month, rounded and floored at
    0, and the wealth accumulated by then, rounded.  The seed carries the sum
    of the input balances as it is, neither rounded nor floored, and a wealth
    of 0. *)
Theorem month_points_are_rounded (debts : list Debt) (capacity : Q)
    (s : StrategyType) (p : Projection) :
  projection debts capacity s = Some p ->
  exists n,
    data p =
    {| monthLabel := "Hoy"; deuda := sumCurrentAmount debts;
       riqueza := 0; index := 0 |} ::
    map (fun k =>
           let st := afterMonths capacity s k
                       (initialState debts (sumCurrentAmount debts)) in
           {| monthLabel := String.append "Mes " (JS.nat_to_string k);
              deuda := JS.Math_max 0
                         (JS.Math_round (sumCurrentAmount (simDebts st)));
              riqueza := JS.Math_round (accumulatedWealth st);
              index := k |})
        (seq 1 n).
Proof.
  unfold projection. destruct (JS.eqb (sumCurrentAmount debts) 0); [discriminate|].
  intro H. injection H as <-. simpl.
  destruct (loop_runs_upto capacity s debts (sumCurrentAmount debts))
    as (n & Hrun).
  exists n. rewrite Hrun, afterMonths_points. simpl.
  f_equal. apply map_ext. intro k.
  unfold emitted, monthPoint. rewrite afterMonths_month. reflexivity.
Qed.

Lemma month_points_are_rounded_witness :
  exists p n,
    projection scenarioB 400 avalanche = Some p /\
    data p =
    {| monthLabel := "Hoy"; deuda := sumCurrentAmount scenarioB;
       riqueza := 0; index := 0 |} ::
    map (fun k =>
           let st := afterMonths 400 avalanche k
                       (initialState scenarioB (sumCurrentAmount scenarioB)) in
           {| monthLabel := String.append "Mes " (JS.nat_to_string k);
              deuda := JS.Math_max 0
                         (JS.Math_round (sumCurrentAmount (simDebts st)));
              riqueza := JS.Math_round (accumulatedWealth st);
              index := k |})
        (seq 1 n).
Proof.
  destruct (projection scenarioB 400 avalanche) as [p|] eqn:Hp.
  - destruct (month_points_are_rounded scenarioB 400 avalanche p Hp) as [n Hn].
    exists p, n. split; [reflexivity | exact Hn].
  - exfalso. unfold projection in Hp.
    destruct (JS.eqb (sumCurrentAmount scenarioB) 0) eqn:E; discriminate.
Defined.

(** C9 as stated does not hold on the seed: one debt of 100.5.  The seed
    carries 100.5, not the rounded 101. *)
Lemma seed_point_is_not_rounded :
  exists p seed,
    projection [debt "A" (201 # 2) None 50] 50 avalanche = Some p /\
    hd_error (data p) = Some seed /\
    deuda seed == 201 # 2 /\
    JS.Math_max 0 (JS.Math_round (sumCurrentAmount [debt "A" (201 # 2) None 50]))
      == 101 /\
    ~ deuda seed ==
      JS.Math_max 0 (JS.Math_round (sumCurrentAmount [debt "A" (201 # 2) None 50])).
Proof.
  eexists. eexists. split; [vm_compute; reflexivity|].
  split; [reflexivity|].
  repeat split; try reflexivity.
  intro H. vm_compute in H. discriminate.
Qed.

(** ** Wealth once the debts are paid *)

Lemma filter_none {A : Type} (f : A -> bool) (l : list A) :
  (forall x, In x l -> f x = false) -> filter f l = [].
Proof.
  induction l as [|a l IH]; intro H; simpl; [reflexivity|].
  rewrite (H a) by now left. apply IH. intros x Hx. apply H. now right.
Qed.

Lemma refs_values_in {A : Type} (l : list A) (r : nat * A) :
  In r (JS.refs l) -> In (snd r) l.
Proof.
  intro H. apply (in_map snd) in H. unfold JS.refs in H.
  now rewrite refs_from_values in H.
Qed.

Lemma payMinimums_inactive (ds : list Debt) (budget : Q) :
  (forall d, In d ds -> isActive d = false) ->
  payMinimums ds budget = (ds, budget).
Proof.
  induction ds as [|d ds IH]; intro H; simpl; [reflexivity|].
  assert (Hd : isActive d = false) by (apply H; now left).
  unfold isActive in Hd. rewrite Hd, IH; [reflexivity|].
  intros d' Hd'. apply H. now right.
Qed.

(** A month that starts without debt: the budget is added to the wealth by
    the extra-payment block, and once more by the test that follows the
    recomputation of the total. *)
Lemma debt_free_month_adds_budget_twice (capacity : Q) (s : StrategyType)
    (st : SimState) :
  (forall d, In d (simDebts st) -> isActive d = false) ->
  JS.eqb (sumCurrentAmount (simDebts st)) 0 = true ->
  JS.gtb capacity 0 = true ->
  simDebts (simulateMonth capacity s st) = simDebts st /\
  accumulatedWealth (simulateMonth capacity s st) =
    accumulatedWealth st + capacity + capacity.
Proof.
  intros Hinactive Hzero Hpos. unfold simulateMonth.
  assert (Hint : map applyInterest (simDebts st) = simDebts st).
  { rewrite <- (map_id (simDebts st)) at 2. apply map_ext_in.
    intros d Hd. unfold applyInterest.
    specialize (Hinactive d Hd). unfold isActive in Hinactive.
    rewrite Hinactive. now destruct (interestRate d). }
  rewrite Hint, (payMinimums_inactive _ _ Hinactive).
  unfold payExtra. rewrite Hpos.
  assert (Hrefs : activeRefs (simDebts st) = []).
  { apply filter_none. intros r Hr. apply Hinactive. now apply refs_values_in. }
  rewrite Hrefs. simpl. rewrite Hzero, Hpos. simpl. split; reflexivity.
Qed.

(** C1 does not hold on the code.  One debt of 100 with a minimum of 100 and a budget of 100:
    the debt is paid in month 1, and from then on the wealth of the points
    goes 0, 200, 400: it grows by twice the budget a month. *)
Theorem wealth_grows_by_twice_the_budget :
  option_map
    (fun p => map (fun pt => (index pt, deuda pt, riqueza pt)) (firstn 4 (data p)))
    (projection [debt "A" 100 (Some 0) 100] 100 avalanche)
  = Some [(0%nat, 100, 0); (1%nat, 0, 0); (2%nat, 0, 200); (3%nat, 0, 400)].
Proof. vm_compute. reflexivity. Qed.

(** ** Nothing to project *)

Lemma sum_of_zero_balances (debts : list Debt) (acc : Q) :
  (forall d, In d debts -> currentAmount d == 0) ->
  fold_left (fun a d => a + currentAmount d) debts acc == acc.
Proof.
  revert acc. induction debts as [|d ds IH]; intros acc H; simpl; [reflexivity|].
  rewrite IH by (intros d' Hd'; apply H; now right).
  rewrite (H d) by now left. ring.
Qed.

(** C2, amended to what the memo returns.  When every balance is zero, and so when there is
    no debt at all, [projection] is null: there is no projection, no seed
    point and no debt-free month; [analysis] is null as well. *)
Theorem no_projection_without_debt (debts : list Debt) (capacity : Q)
    (s : StrategyType) :
  (forall d, In d debts -> currentAmount d == 0) ->
  projection debts capacity s = None /\ analysis debts = None.
Proof.
  intro Hzero. split.
  - unfold projection.
    assert (H : JS.eqb (sumCurrentAmount debts) 0 = true).
    { apply eqb_spec. unfold sumCurrentAmount. now apply sum_of_zero_balances. }
    now rewrite H.
  - unfold analysis. rewrite filter_none; [reflexivity|].
    intros d Hd. apply gtb_false. rewrite (Hzero d Hd). apply Qle_refl.
Qed.

Lemma no_projection_without_debt_witness :
  (forall d, In d [debt "A" 0 (Some 10) 100; debt "B" 0 None 50] ->
     currentAmount d == 0) /\
  projection [debt "A" 0 (Some 10) 100; debt "B" 0 None 50] 150 snowball = None /\
  analysis [debt "A" 0 (Some 10) 100; debt "B" 0 None 50] = None.
Proof.
  assert (Hzero : forall d, In d [debt "A" 0 (Some 10) 100; debt "B" 0 None 50] ->
                    currentAmount d == 0).
  { intros d [<-|[<-|[]]]; reflexivity. }
  split; [exact Hzero|].
  exact (no_projection_without_debt _ 150 snowball Hzero).
Defined.

(** C2 as stated does not hold: neither for the empty list nor for a debt
    already at zero is there a projection holding the seed point alone. *)
Lemma no_seed_only_projection :
  ~ (exists p, projection [] 1000 avalanche = Some p /\
               List.length (data p) = 1%nat /\ debtFreeInMonths p = 0%nat) /\
  ~ (exists p, projection [debt "A" 0 (Some 10) 100] 1000 avalanche = Some p /\
               List.length (data p) = 1%nat /\ debtFreeInMonths p = 0%nat).
Proof.
  split; intros (p & Hp & _); vm_compute in Hp; discriminate.
Qed.

(** ** The login gate *)

(** The handler on any state of the component, the state with no user
    included, which only the guard at its head ever meets. *)
Lemma handleLogin_gate (st : LoginState) :
  (forall u, In (onLogin u) (snd (handleLogin st)) <->
             selectedUser st = Some u /\ pin st = "2024"%string) /\
  (forall u, selectedUser st = Some u -> pin st = "2024"%string ->
     handleLogin st = (st, [preventDefault; onLogin u])) /\
  (forall u, selectedUser st = Some u -> pin st <> "2024"%string ->
     handleLogin st =
     ({| selectedUser := Some u; pin := ""; error := "PIN Incorrecto" |},
      [preventDefault])) /\
  (selectedUser st = None -> handleLogin st = (st, [preventDefault])).
Proof.
  unfold handleLogin.
  destruct (selectedUser st) as [user|] eqn:Hu.
  - destruct (String.eqb (pin st) "2024") eqn:Hpin.
    + apply String.eqb_eq in Hpin.
      split; [|split; [|split]].
      * intro u. simpl. split.
        -- intros [Hc|[Hc|[]]]; [discriminate|]. injection Hc as <-. now split.
        -- intros [Hc _]. injection Hc as <-. right. now left.
      * intros u Hc _. now injection Hc as <-.
      * intros u _ Hne. contradiction.
      * discriminate.
    + apply String.eqb_neq in Hpin.
      split; [|split; [|split]].
      * intro u. simpl. split.
        -- intros [Hc|[]]. discriminate.
        -- intros [_ Hc]. contradiction.
      * intros u _ Heq. contradiction.
      * intros u Hc _. now injection Hc as <-.
      * discriminate.
  - split; [|split; [|split]].
    + intro u. simpl. split.
      * intros [Hc|[]]. discriminate.
      * intros [Hc _]. discriminate.
    + discriminate.
    + discriminate.
    + reflexivity.
Qed.

(** ** More on the advisor *)

Lemma filter_nil_none {A : Type} (f : A -> bool) (l : list A) :
  filter f l = [] -> forall x, In x l -> f x = false.
Proof.
  intros Hnil x Hx. destruct (f x) eqn:Hfx; [|reflexivity].
  assert (Hin : In x (filter f l)) by (apply filter_In; auto).
  rewrite Hnil in Hin. destruct Hin.
Qed.

Lemma filter_twice {A : Type} (f : A -> bool) (l : list A) :
  filter f (filter f l) = filter f l.
Proof.
  induction l as [|a l IH]; simpl; [reflexivity|].
  destruct (f a) eqn:Hfa; simpl; [rewrite Hfa, IH; reflexivity | exact IH].
Qed.

(** X1.  The advisor is silent exactly when no debt has a positive balance;
    and then there is no priority debt either, whatever the strategy. *)
Theorem analysis_silent_iff_nothing_owed (debts : list Debt) :
  (analysis debts = None <-> forall d, In d debts -> isActive d = false) /\
  (forall s, getPriorityDebt debts s = None <-> analysis debts = None).
Proof.
  assert (Hfilter : analysis debts = None <-> filter isActive debts = []).
  { split; intro H.
    - destruct (filter isActive debts) as [|d0 rest] eqn:Hf; [reflexivity|].
      assert (Hne : filter isActive debts <> []) by congruence.
      destruct (analysis_picks debts Hne) as (hi & lo & i & j & _ & _ & Ha).
      rewrite Ha in H. discriminate.
    - unfold analysis. now rewrite H. }
  split.
  - rewrite Hfilter. split; [apply filter_nil_none | apply filter_none].
  - intro s. rewrite Hfilter. unfold getPriorityDebt.
    destruct (filter isActive debts) as [|d0 rest]; [tauto|].
    destruct s; split; discriminate.
Qed.

(** X2.  Debts that are paid off weigh nothing in the advice: taking them
    out of the list changes neither the recommendation nor the priority
    debt. *)
Theorem advice_ignores_paid_debts (debts : list Debt) :
  analysis (filter isActive debts) = analysis debts /\
  forall s, getPriorityDebt (filter isActive debts) s = getPriorityDebt debts s.
Proof.
  unfold analysis, getPriorityDebt. rewrite filter_twice. split; reflexivity.
Qed.

(** X3.  Read off the debts themselves: snowball is recommended exactly when
    no active debt has a rate above 40 and some active debt owes less than
    5000; in every other case the recommendation is avalanche. *)
Theorem snowball_iff_no_high_rate_and_a_small_debt (debts : list Debt)
    (r : Analysis) :
  analysis debts = Some r ->
  (recommended r = snowball <->
   (forall d, In d debts -> isActive d = true -> rate d <= 40) /\
   (exists d, In d debts /\ isActive d = true /\ currentAmount d < 5000)).
Proof.
  intro Ha.
  assert (Hne : filter isActive debts <> []).
  { intro Hnil. unfold analysis in Ha. rewrite Hnil in Ha. discriminate. }
  destruct (analysis_picks debts Hne) as (hi & lo & i & j & Hhi & Hlo & Hr).
  apply FirstGreatest_greatest in Hhi. apply FirstLeast_least in Hlo.
  destruct Hhi as (Hhi_in & Hhi_act & Hhi_max).
  destruct Hlo as (Hlo_in & Hlo_act & Hlo_min).
  rewrite Hr in Ha. injection Ha as <-.
  destruct (JS.gtb (rate hi) 40) eqn:E1.
  - apply gtb_spec in E1. simpl. split; [discriminate|].
    intros [Hall _]. specialize (Hall hi Hhi_in Hhi_act). order_clash.
  - apply gtb_false in E1.
    destruct (JS.ltb (currentAmount lo) 5000) eqn:E2.
    + apply ltb_spec in E2. simpl. split; [intros _|reflexivity]. split.
      * intros d Hd Hact. apply Qle_trans with (rate hi); [|exact E1].
        now apply Hhi_max.
      * exists lo. auto.
    + apply ltb_false in E2. simpl. split; [discriminate|].
      intros [_ (d & Hd & Hact & Hsmall)].
      specialize (Hlo_min d Hd Hact).
      assert (Hlt : currentAmount lo < 5000)
        by (apply Qle_lt_trans with (currentAmount d); assumption).
      order_clash.
Qed.

Lemma snowball_iff_no_high_rate_and_a_small_debt_witness :
  exists r,
    analysis [debt "car" 3000 (Some 12) 150; debt "house" 90000 (Some 9) 700]
      = Some r /\
    (recommended r = snowball <->
     (forall d, In d [debt "car" 3000 (Some 12) 150;
                      debt "house" 90000 (Some 9) 700] ->
                isActive d = true -> rate d <= 40) /\
     (exists d, In d [debt "car" 3000 (Some 12) 150;
                      debt "house" 90000 (Some 9) 700] /\
                isActive d = true /\ currentAmount d < 5000)).
Proof.
  eexists. split; [vm_compute; reflexivity|].
  apply (snowball_iff_no_high_rate_and_a_small_debt
           [debt "car" 3000 (Some 12) 150; debt "house" 90000 (Some 9) 700]).
  vm_compute. reflexivity.
Defined.

(** X4.  With the recommended strategy in force, the priority debt of the
    Dashboard is the debt the advisor's reason cites: by name and rate for the
    high-interest reason, by name and balance for the small-debt reason; for
    the general reason it is the debt of highest rate. *)
Theorem priority_debt_is_the_debt_cited (debts : list Debt) (r : Analysis) :
  analysis debts = Some r ->
  exists target,
    getPriorityDebt debts (currentStrategy None (Some r)) = Some target /\
    match reason r with
    | VeryHighInterest debtName maxInterest =>
        debtName = name target /\ maxInterest = rate target
    | SmallDebt debtName balance =>
        debtName = name target /\ balance = currentAmount target
    | Mathematically => target = maxInterestDebt r
    end.
Proof.
  unfold analysis, getPriorityDebt, currentStrategy.
  destruct (filter isActive debts) as [|d0 rest] eqn:Hf; [discriminate|].
  rewrite <- Hf.
  set (hi := first d0 (JS.sort byRateDesc (filter isActive debts))).
  set (lo := first d0 (JS.sort byBalance (filter isActive debts))).
  destruct (JS.gtb (JS.or_zero (interestRate hi)) 40);
    [|destruct (JS.ltb (currentAmount lo) 5000)];
    intro H; injection H as <-; simpl; eexists; split; try reflexivity;
    simpl; auto.
Qed.

Lemma priority_debt_is_the_debt_cited_witness :
  exists r target,
    analysis scenarioB = Some r /\
    getPriorityDebt scenarioB (currentStrategy None (Some r)) = Some target /\
    name target = "A"%string.
Proof.
  assert (Ha : analysis scenarioB =
               Some (mkAnalysis avalanche (VeryHighInterest "A" 60) debtA debtA))
    by (vm_compute; reflexivity).
  destruct (priority_debt_is_the_debt_cited scenarioB _ Ha)
    as (target & Hp & Hname & _).
  eexists. exists target. split; [exact Ha|]. split; [exact Hp|].
  symmetry. exact Hname.
Defined.

(** ** More on the engine: what a month keeps *)

Lemma sum_from (ds : list Debt) (acc : Q) :
  fold_left (fun a d => a + currentAmount d) ds acc == acc + balances ds.
Proof.
  revert acc. induction ds as [|d ds IH]; intro acc; simpl; [ring|].
  rewrite IH. ring.
Qed.

Lemma sumCurrentAmount_balances (ds : list Debt) :
  sumCurrentAmount ds == balances ds.
Proof. unfold sumCurrentAmount. rewrite sum_from. ring. Qed.

Lemma balances_app (l1 l2 : list Debt) :
  balances (l1 ++ l2) == balances l1 + balances l2.
Proof.
  induction l1 as [|d l1 IH]; simpl; [ring|]. rewrite IH. ring.
Qed.

(** The three ways through the extra-payment block. *)
Lemma payExtra_cases (s : StrategyType) (ds : list Debt) (budget wealth : Q) :
  (JS.gtb budget 0 = false /\
   payExtra s ds budget wealth = (ds, budget, wealth)) \/
  (JS.gtb budget 0 = true /\
   (forall d, In d ds -> isActive d = false) /\
   payExtra s ds budget wealth = (ds, budget, wealth + budget)) \/
  (JS.gtb budget 0 = true /\
   exists l1 target l2,
     ds = l1 ++ target :: l2 /\ isActive target = true /\
     payExtra s ds budget wealth =
     (l1 ++ set_currentAmount target
              (currentAmount target - JS.Math_min (currentAmount target) budget)
         :: l2,
      budget - JS.Math_min (currentAmount target) budget,
      wealth)).
Proof.
  destruct (JS.gtb budget 0) eqn:Hb.
  - destruct (activeRefs ds) as [|r0 rest] eqn:Hrefs.
    + right. left. split; [reflexivity|]. split.
      * intros d Hd. destruct (isActive d) eqn:Hact; [|reflexivity].
        exfalso. apply (refs_nonempty ds); [now exists d | exact Hrefs].
      * unfold payExtra. now rewrite Hb, Hrefs.
    + right. right. split; [reflexivity|].
      assert (Hact : exists d, In d ds /\ isActive d = true).
      { exists (snd r0).
        assert (Hin : In r0 (activeRefs ds)) by (rewrite Hrefs; now left).
        apply filter_In in Hin. destruct Hin as [Hin Hp].
        split; [now apply refs_values_in | exact Hp]. }
      destruct (payExtra_target s ds budget wealth Hb Hact)
        as (l1 & target & l2 & Hds & Hp & _ & Hres).
      now exists l1, target, l2.
  - left. split; [reflexivity|]. unfold payExtra. now rewrite Hb.
Qed.

Lemma applyInterest_terms (d : Debt) : terms (applyInterest d) = terms d.
Proof.
  unfold applyInterest. destruct (interestRate d) as [r|] eqn:Hr; [|reflexivity].
  destruct (JS.gtb (currentAmount d) 0 && JS.truthy r); reflexivity.
Qed.

Lemma simulateMonth_terms (capacity : Q) (s : StrategyType) (st : SimState) :
  map terms (simDebts (simulateMonth capacity s st)) = map terms (simDebts st).
Proof.
  unfold simulateMonth.
  pose proof (payMinimums_debts (map applyInterest (simDebts st)) capacity) as Hmin.
  destruct (payMinimums _ _) as [ds2 b2]. simpl in Hmin.
  assert (H2 : map terms ds2 = map terms (simDebts st)).
  { rewrite Hmin, !map_map. apply map_ext. intro d.
    destruct (isActive (applyInterest d)); simpl;
      rewrite <- (applyInterest_terms d); reflexivity. }
  destruct (payExtra_cases s ds2 b2 (accumulatedWealth st))
    as [[_ Hres]|[(_ & _ & Hres)|(_ & l1 & target & l2 & Hds & _ & Hres)]];
    rewrite Hres; simpl; try exact H2.
  rewrite <- H2, Hds, !map_app. reflexivity.
Qed.

(** X5.  The engine writes balances and nothing else: after any number of
    months, and at the end of the loop, [simDebts] holds the same debts in the
    same order, each with its name, initial amount, rate, minimum payment and
    colour. *)
Theorem engine_changes_balances_only (capacity : Q) (s : StrategyType)
    (st : SimState) :
  (forall k, map terms (simDebts (afterMonths capacity s k st)) =
             map terms (simDebts st)) /\
  map terms (simDebts (simulate capacity s st)) = map terms (simDebts st).
Proof.
  assert (Hk : forall k, map terms (simDebts (afterMonths capacity s k st)) =
                         map terms (simDebts st)).
  { induction k as [|k IH]; [reflexivity|].
    change (afterMonths capacity s (S k) st)
      with (simulateMonth capacity s (afterMonths capacity s k st)).
    now rewrite simulateMonth_terms. }
  split; [exact Hk|].
  destruct (simulate_runs capacity s (maxMonths - month st) st (Nat.le_refl _))
    as (n & Hrun & _).
  rewrite Hrun. apply Hk.
Qed.

Lemma applyInterest_wellFormed (d : Debt) :
  WellFormed d -> WellFormed (applyInterest d).
Proof.
  intro Hwf. pose proof Hwf as [Hbal Hrate]. unfold applyInterest.
  destruct (interestRate d) as [r|] eqn:Hr; [|exact Hwf].
  destruct (JS.gtb (currentAmount d) 0 && JS.truthy r); [|exact Hwf].
  split; simpl.
  - specialize (Hrate r eq_refl).
    assert (0 <= currentAmount d * (r / 100 / 12)).
    { apply Qmult_le_0_compat; [exact Hbal|].
      apply Qle_shift_div_l; [reflexivity|].
      apply Qle_shift_div_l; [reflexivity|]. lra. }
    lra.
  - apply Hwf.
Qed.

Lemma pay_wellFormed (d : Debt) (offer : Q) :
  WellFormed d ->
  WellFormed (set_currentAmount d
                (currentAmount d - JS.Math_min (currentAmount d) offer)).
Proof.
  intros [Hbal Hrate]. split; simpl; [|exact Hrate].
  pose proof (Q.le_min_l (currentAmount d) offer) as Hle.
  unfold JS.Math_min. lra.
Qed.

Lemma simulateMonth_wellFormed (capacity : Q) (s : StrategyType) (st : SimState) :
  Forall WellFormed (simDebts st) ->
  Forall WellFormed (simDebts (simulateMonth capacity s st)).
Proof.
  intro Hwf. unfold simulateMonth.
  pose proof (payMinimums_debts (map applyInterest (simDebts st)) capacity) as Hmin.
  destruct (payMinimums _ _) as [ds2 b2]. simpl in Hmin.
  assert (H2 : Forall WellFormed ds2).
  { rewrite Hmin. apply Forall_map, Forall_map.
    apply Forall_impl with (P := WellFormed); [|exact Hwf].
    intros d Hd. apply applyInterest_wellFormed in Hd.
    unfold minimumPaid. destruct (isActive (applyInterest d)); [|exact Hd].
    now apply pay_wellFormed. }
  destruct (payExtra_cases s ds2 b2 (accumulatedWealth st))
    as [[_ Hres]|[(_ & _ & Hres)|(_ & l1 & target & l2 & Hds & _ & Hres)]];
    rewrite Hres; simpl; try exact H2.
  rewrite Hds in H2. apply Forall_app in H2. destruct H2 as [H1 Ht].
  apply Forall_app. split; [exact H1|].
  inversion Ht as [|? ? Htarget Hrest]; subst.
  constructor; [now apply pay_wellFormed | exact Hrest].
Qed.

Lemma balances_nonneg (ds : list Debt) :
  Forall WellFormed ds -> 0 <= balances ds.
Proof.
  induction 1 as [|d ds [Hd _] _ IH]; simpl; lra.
Qed.

(** X6.  No payment overshoots: from debts without negative balance or
    negative rate, no month ever leaves a negative balance, whatever the
    budget, the minimum payments and the strategy; the total the loop tracks
    is never negative either. *)
Theorem balances_never_go_negative (capacity : Q) (s : StrategyType)
    (st : SimState) (k : nat) :
  Forall WellFormed (simDebts st) ->
  Forall (fun d => 0 <= currentAmount d)
         (simDebts (afterMonths capacity s k st)) /\
  0 <= currentTotalDebt (afterMonths capacity s (S k) st).
Proof.
  intro Hwf.
  assert (Hk : forall n, Forall WellFormed (simDebts (afterMonths capacity s n st))).
  { induction n as [|n IH]; [exact Hwf|].
    change (afterMonths capacity s (S n) st)
      with (simulateMonth capacity s (afterMonths capacity s n st)).
    now apply simulateMonth_wellFormed. }
  split.
  - apply Forall_impl with (P := WellFormed); [|apply Hk]. now intros d [H _].
  - change (afterMonths capacity s (S k) st)
      with (simulateMonth capacity s (afterMonths capacity s k st)).
    destruct (simulateMonth_shape capacity s (afterMonths capacity s k st))
      as (_ & Htotal & _).
    rewrite Htotal, sumCurrentAmount_balances.
    apply balances_nonneg. apply (Hk (S k)).
Qed.

Lemma balances_never_go_negative_witness :
  Forall WellFormed (simDebts (initialState scenarioB 6000)) /\
  Forall (fun d => 0 <= currentAmount d)
         (simDebts (afterMonths 400 snowball 7 (initialState scenarioB 6000))).
Proof.
  assert (Hwf : Forall WellFormed (simDebts (initialState scenarioB 6000))).
  { repeat constructor; simpl; try discriminate;
      intros r Hr; injection Hr as <-; discriminate. }
  split; [exact Hwf|].
  exact (proj1 (balances_never_go_negative 400 snowball _ 7 Hwf)).
Defined.

(** ** More on the engine: where the money goes *)

Lemma paid_balances (ds : list Debt) :
  balances (map (fun d => if isActive d
                          then set_currentAmount d (currentAmount d - minimumPaid d)
                          else d) ds)
  == balances ds - minimumsPaid ds.
Proof.
  induction ds as [|d ds IH]; [simpl; ring|].
  assert (Hd : currentAmount (if isActive d
                              then set_currentAmount d (currentAmount d - minimumPaid d)
                              else d)
               == currentAmount d - minimumPaid d).
  { unfold minimumPaid. destruct (isActive d); simpl; ring. }
  change (currentAmount (if isActive d
                         then set_currentAmount d (currentAmount d - minimumPaid d)
                         else d)
          + balances (map (fun d => if isActive d
                                    then set_currentAmount d
                                           (currentAmount d - minimumPaid d)
                                    else d) ds)
          == currentAmount d + balances ds - (minimumPaid d + minimumsPaid ds)).
  rewrite IH, Hd. ring.
Qed.

Lemma payExtra_conserves (s : StrategyType) (ds : list Debt) (budget wealth : Q) :
  balances ds - balances (fst (fst (payExtra s ds budget wealth))) ==
  budget - snd (fst (payExtra s ds budget wealth)).
Proof.
  destruct (payExtra_cases s ds budget wealth)
    as [[_ Hres]|[(_ & _ & Hres)|(_ & l1 & target & l2 & Hds & _ & Hres)]];
    rewrite Hres; simpl; try ring.
  rewrite Hds, !balances_app. simpl. ring.
Qed.

(** In exact arithmetic, what the budget loses in a month is what the
    balances lose. *)
Lemma payments_total (capacity : Q) (s : StrategyType) (st : SimState) :
  currentTotalDebt (simulateMonth capacity s st) ==
  sumCurrentAmount (map applyInterest (simDebts st)) -
  (capacity -
   snd (fst (payExtra s
               (fst (payMinimums (map applyInterest (simDebts st)) capacity))
               (snd (payMinimums (map applyInterest (simDebts st)) capacity))
               (accumulatedWealth st)))).
Proof.
  pose proof (payExtra_conserves s
                (fst (payMinimums (map applyInterest (simDebts st)) capacity))
                (snd (payMinimums (map applyInterest (simDebts st)) capacity))
                (accumulatedWealth st)) as Hextra.
  pose proof (payMinimums_debts (map applyInterest (simDebts st)) capacity) as Hds.
  pose proof (payMinimums_budget (map applyInterest (simDebts st)) capacity) as Hb.
  pose proof (paid_balances (map applyInterest (simDebts st))) as Hpaid.
  rewrite <- Hds in Hpaid.
  unfold simulateMonth.
  destruct (payMinimums _ _) as [ds2 b2]. simpl in *.
  destruct (payExtra _ _ _ _) as [[ds3 b3] w3]. simpl in *.
  rewrite !sumCurrentAmount_balances. lra.
Qed.

Lemma minimumsPaid_nonneg (ds : list Debt) :
  (forall d, In d ds -> 0 <= minPayment d) -> 0 <= minimumsPaid ds.
Proof.
  intro Hmin. destruct (minimumsPaid_prefix ds (List.length ds) Hmin) as [H _].
  now rewrite firstn_all in H.
Qed.

Lemma payExtra_takes_nonneg (s : StrategyType) (ds : list Debt)
    (budget wealth : Q) :
  snd (fst (payExtra s ds budget wealth)) <= budget.
Proof.
  destruct (payExtra_cases s ds budget wealth)
    as [[_ Hres]|[(_ & _ & Hres)|(Hb & l1 & target & l2 & _ & Hact & Hres)]];
    rewrite Hres; simpl; try apply Qle_refl.
  apply gtb_spec in Hb. apply isActive_spec in Hact.
  assert (0 <= JS.Math_min (currentAmount target) budget)
    by (apply Q.min_glb; now apply Qlt_le_weak).
  lra.
Qed.

Lemma applyInterest_idle (d : Debt) : rate d == 0 -> applyInterest d = d.
Proof.
  unfold rate, JS.or_zero, applyInterest.
  destruct (interestRate d) as [r|]; [|reflexivity].
  destruct (JS.truthy r) eqn:Ht; [|now rewrite andb_false_r].
  intro Hz. unfold JS.truthy in Ht. apply negb_true_iff in Ht.
  apply Qeq_bool_iff in Hz. congruence.
Qed.

(** X8.  Payments never raise the debt: with minimum payments that are not
    negative, the total at the end of a month is at most the total with the
    month's interest; and when no debt bears interest, it is at most the total
    the month started from. *)
Theorem payments_never_raise_the_debt (capacity : Q) (s : StrategyType)
    (st : SimState) :
  (forall d, In d (simDebts st) -> 0 <= minPayment d) ->
  currentTotalDebt (simulateMonth capacity s st) <=
    sumCurrentAmount (map applyInterest (simDebts st)) /\
  ((forall d, In d (simDebts st) -> rate d == 0) ->
   currentTotalDebt (simulateMonth capacity s st) <=
     sumCurrentAmount (simDebts st)).
Proof.
  intro Hmin.
  assert (Hle : currentTotalDebt (simulateMonth capacity s st) <=
                sumCurrentAmount (map applyInterest (simDebts st))).
  { rewrite (payments_total capacity s st).
    pose proof (payMinimums_budget (map applyInterest (simDebts st)) capacity) as Hb.
    pose proof (payExtra_takes_nonneg s
                  (fst (payMinimums (map applyInterest (simDebts st)) capacity))
                  (snd (payMinimums (map applyInterest (simDebts st)) capacity))
                  (accumulatedWealth st)) as Hx.
    assert (Hpaid : 0 <= minimumsPaid (map applyInterest (simDebts st))).
    { apply minimumsPaid_nonneg. intros d Hd.
      apply in_map_iff in Hd. destruct Hd as (d0 & <- & Hd0).
      pose proof (applyInterest_terms d0) as Ht. unfold terms in Ht.
      injection Ht as _ _ _ Hm _. rewrite Hm. now apply Hmin. }
    lra. }
  split; [exact Hle|].
  intro Hfree.
  assert (Hid : map applyInterest (simDebts st) = simDebts st).
  { rewrite <- (map_id (simDebts st)) at 2. apply map_ext_in.
    intros d Hd. apply applyInterest_idle. now apply Hfree. }
  now rewrite Hid in Hle.
Qed.

Lemma payments_never_raise_the_debt_witness :
  (forall d, In d (simDebts (initialState twins 16000)) -> 0 <= minPayment d) /\
  currentTotalDebt (simulateMonth 700 avalanche (initialState twins 16000)) <=
  sumCurrentAmount (map applyInterest (simDebts (initialState twins 16000))).
Proof.
  assert (Hmin : forall d, In d (simDebts (initialState twins 16000)) ->
                           0 <= minPayment d).
  { intros d [<-|[<-|[]]]; discriminate. }
  split; [exact Hmin|].
  exact (proj1 (payments_never_raise_the_debt 700 avalanche _ Hmin)).
Defined.

(** X9.  The extra payment either clears its target or uses up the budget:
    after the block the target's balance is zero or nothing is left of the
    budget, and neither is negative.  Budget that is left once the target is
    cleared is not passed on to another debt in that month. *)
Theorem extra_payment_clears_target_or_budget (s : StrategyType)
    (ds : list Debt) (budget wealth : Q) :
  JS.gtb budget 0 = true ->
  (exists d, In d ds /\ isActive d = true) ->
  exists i target paid,
    nth_error ds i = Some target /\
    nth_error (fst (fst (payExtra s ds budget wealth))) i = Some paid /\
    (currentAmount paid == 0 \/ snd (fst (payExtra s ds budget wealth)) == 0) /\
    0 <= currentAmount paid /\
    0 <= snd (fst (payExtra s ds budget wealth)) /\
    balances (fst (fst (payExtra s ds budget wealth))) ==
      balances ds - (currentAmount target - currentAmount paid).
Proof.
  intros Hb Hact.
  destruct (payExtra_target s ds budget wealth Hb Hact)
    as (l1 & target & l2 & Hds & Hp & _ & Hres).
  exists (List.length l1), target,
    (set_currentAmount target
       (currentAmount target - JS.Math_min (currentAmount target) budget)).
  rewrite Hres, Hds. simpl.
  unfold JS.Math_min.
  pose proof (Q.le_min_l (currentAmount target) budget) as Hl.
  pose proof (Q.le_min_r (currentAmount target) budget) as Hr.
  split; [now rewrite nth_error_app2, Nat.sub_diag by lia|].
  split; [now rewrite nth_error_app2, Nat.sub_diag by lia|].
  split.
  - destruct (Q.min_spec (currentAmount target) budget) as [[_ Hm]|[_ Hm]];
      [left | right]; rewrite Hm; ring.
  - split; [lra|]. split; [lra|].
    rewrite !balances_app. simpl. ring.
Qed.

Lemma extra_payment_clears_target_or_budget_witness :
  JS.gtb 980 0 = true /\
  (exists d, In d [debt "A" 90 (Some 0) 10; debt "B" 90 (Some 0) 10]
             /\ isActive d = true) /\
  exists i target paid,
    nth_error [debt "A" 90 (Some 0) 10; debt "B" 90 (Some 0) 10] i
      = Some target /\
    nth_error (fst (fst (payExtra snowball
                           [debt "A" 90 (Some 0) 10; debt "B" 90 (Some 0) 10]
                           980 0))) i = Some paid /\
    (currentAmount paid == 0 \/
     snd (fst (payExtra snowball
                 [debt "A" 90 (Some 0) 10; debt "B" 90 (Some 0) 10] 980 0)) == 0).
Proof.
  assert (Hact : exists d, In d [debt "A" 90 (Some 0) 10; debt "B" 90 (Some 0) 10]
                           /\ isActive d = true).
  { eexists. split; [left; reflexivity | reflexivity]. }
  split; [reflexivity|]. split; [exact Hact|].
  destruct (extra_payment_clears_target_or_budget snowball _ 980 0 eq_refl Hact)
    as (i & target & paid & H1 & H2 & H3 & _).
  exists i, target, paid. repeat split; assumption.
Defined.

(** ** More on the engine: wealth *)

Lemma simulateMonth_wealth (capacity : Q) (s : StrategyType) (st : SimState) :
  accumulatedWealth st <= accumulatedWealth (simulateMonth capacity s st).
Proof.
  unfold simulateMonth.
  destruct (payMinimums _ _) as [ds2 b2].
  destruct (payExtra_cases s ds2 b2 (accumulatedWealth st))
    as [[Hb Hres]|[(Hb & _ & Hres)|(Hb & l1 & target & l2 & _ & _ & Hres)]];
    rewrite Hres; simpl.
  - rewrite Hb, andb_false_r. apply Qle_refl.
  - apply gtb_spec in Hb.
    destruct (JS.eqb (sumCurrentAmount ds2) 0 && JS.gtb b2 0); simpl; lra.
  - destruct (JS.gtb (b2 - JS.Math_min (currentAmount target) b2) 0) eqn:Hleft;
      [|rewrite andb_false_r; apply Qle_refl].
    apply gtb_spec in Hleft.
    destruct (JS.eqb _ 0); simpl; lra.
Qed.

Lemma afterMonths_wealth (capacity : Q) (s : StrategyType) (st : SimState)
    (i j : nat) :
  (i <= j)%nat ->
  accumulatedWealth (afterMonths capacity s i st) <=
  accumulatedWealth (afterMonths capacity s j st).
Proof.
  induction 1 as [|j Hij IH]; [apply Qle_refl|].
  apply Qle_trans with (accumulatedWealth (afterMonths capacity s j st));
    [exact IH|].
  change (afterMonths capacity s (S j) st)
    with (simulateMonth capacity s (afterMonths capacity s j st)).
  apply simulateMonth_wealth.
Qed.

Lemma Math_round_le (a b : Q) : a <= b -> JS.Math_round a <= JS.Math_round b.
Proof.
  intro H. unfold JS.Math_round. rewrite <- Zle_Qle.
  apply Qfloor_resp_le. lra.
Qed.

(** The loop from the seed, with the bounds on its length. *)
Lemma loop_length (capacity : Q) (s : StrategyType) (debts : list Debt)
    (total : Q) :
  exists n,
    (12 <= n <= 60)%nat /\
    simulate capacity s (initialState debts total) =
    afterMonths capacity s n (initialState debts total).
Proof.
  destruct (simulate_runs capacity s maxMonths (initialState debts total))
    as (n & Hrun & Hbefore & Hstop); [apply Nat.le_sub_l|].
  exists n. split; [|exact Hrun]. split.
  - destruct (Nat.lt_ge_cases n 12) as [Hlt|Hge]; [|exact Hge].
    exfalso. unfold loopCondition in Hstop.
    rewrite afterMonths_month in Hstop. simpl in Hstop.
    assert (H12 : (n <? 12)%nat = true) by (apply Nat.ltb_lt; exact Hlt).
    assert (H60 : (n <? maxMonths)%nat = true)
      by (apply Nat.ltb_lt; unfold maxMonths; lia).
    rewrite H12, H60, orb_true_r in Hstop. discriminate.
  - destruct n as [|n]; [lia|].
    specialize (Hbefore n (Nat.lt_succ_diag_r n)).
    unfold loopCondition in Hbefore. apply andb_prop in Hbefore.
    destruct Hbefore as [_ Hlt]. apply Nat.ltb_lt in Hlt.
    rewrite afterMonths_month in Hlt. simpl in Hlt. unfold maxMonths in Hlt. lia.
Qed.

(** The points of a projection, by position. *)
Lemma projection_points (debts : list Debt) (capacity : Q) (s : StrategyType)
    (p : Projection) :
  projection debts capacity s = Some p ->
  ~ sumCurrentAmount debts == 0 /\
  exists n,
    (12 <= n <= 60)%nat /\
    List.length (data p) = S n /\
    debtFreeInMonths p = debtFreeMonth (data p) /\
    hd_error (data p) =
      Some {| monthLabel := "Hoy"; deuda := sumCurrentAmount debts;
              riqueza := 0; index := 0 |} /\
    forall i, (1 <= i <= n)%nat ->
      nth_error (data p) i =
      Some (emitted (afterMonths capacity s i
                       (initialState debts (sumCurrentAmount debts)))).
Proof.
  unfold projection.
  destruct (JS.eqb (sumCurrentAmount debts) 0) eqn:Hz; [discriminate|].
  intro H. injection H as <-. simpl.
  split.
  { intro Hq. apply eqb_spec in Hq. congruence. }
  destruct (loop_length capacity s debts (sumCurrentAmount debts))
    as (n & Hn & Hrun).
  exists n. rewrite Hrun, afterMonths_points. simpl.
  split; [exact Hn|]. split; [now rewrite length_map, length_seq|].
  split; [reflexivity|]. split; [reflexivity|].
  intros i Hi. destruct i as [|i]; [lia|]. simpl.
  rewrite nth_error_map, nth_error_seq.
  assert (Hlt : (i <? n)%nat = true) by (apply Nat.ltb_lt; lia).
  rewrite Hlt. reflexivity.
Qed.

Lemma projection_point_at (debts : list Debt) (capacity : Q) (s : StrategyType)
    (p : Projection) (i : nat) (pt : Point) :
  projection debts capacity s = Some p ->
  nth_error (data p) i = Some pt ->
  index pt = i /\
  riqueza pt ==
    JS.Math_round
      (accumulatedWealth
         (afterMonths capacity s i (initialState debts (sumCurrentAmount debts)))) /\
  (i = 0%nat -> deuda pt = sumCurrentAmount debts) /\
  ((1 <= i)%nat ->
   pt = emitted (afterMonths capacity s i
                   (initialState debts (sumCurrentAmount debts)))).
Proof.
  intros Hp Hpt.
  destruct (projection_points debts capacity s p Hp)
    as (_ & n & _ & Hlen & _ & Hseed & Hmonths).
  assert (Hi : (i < S n)%nat).
  { rewrite <- Hlen. apply nth_error_Some. congruence. }
  destruct i as [|i].
  - assert (Hhd : hd_error (data p) = Some pt) by (now destruct (data p)).
    rewrite Hseed in Hhd. injection Hhd as <-. simpl.
    repeat split; try reflexivity. intro H. lia.
  - rewrite Hmonths in Hpt by lia. injection Hpt as <-.
    split.
    { exact (afterMonths_month capacity s (S i)
               (initialState debts (sumCurrentAmount debts))). }
    split; [reflexivity|].
    split; [intro H; discriminate | reflexivity].
Qed.

(** X10.  Wealth never shrinks: along the points of a projection [riqueza]
    is never negative and never decreases from a point to a later one. *)
Theorem wealth_never_shrinks (debts : list Debt) (capacity : Q)
    (s : StrategyType) (p : Projection) :
  projection debts capacity s = Some p ->
  forall i j a b,
    (i <= j)%nat ->
    nth_error (data p) i = Some a ->
    nth_error (data p) j = Some b ->
    0 <= riqueza a /\ riqueza a <= riqueza b.
Proof.
  intros Hp i j a b Hij Ha Hb.
  destruct (projection_point_at debts capacity s p i a Hp Ha) as (_ & Hwa & _).
  destruct (projection_point_at debts capacity s p j b Hp Hb) as (_ & Hwb & _).
  rewrite Hwa, Hwb. split.
  - change 0 with (JS.Math_round 0) at 1. apply Math_round_le.
    apply (afterMonths_wealth capacity s
             (initialState debts (sumCurrentAmount debts)) 0 i). lia.
  - apply Math_round_le. now apply afterMonths_wealth.
Qed.

Lemma wealth_never_shrinks_witness :
  exists p a b,
    projection [debt "A" 100 (Some 0) 100] 100 avalanche = Some p /\
    nth_error (data p) 1 = Some a /\
    nth_error (data p) 3 = Some b /\
    0 <= riqueza a /\ riqueza a <= riqueza b.
Proof.
  destruct (projection [debt "A" 100 (Some 0) 100] 100 avalanche) as [p|] eqn:Hp;
    [|vm_compute in Hp; discriminate].
  destruct (nth_error (data p) 1) as [a|] eqn:Ha;
    [|vm_compute in Hp; injection Hp as <-; discriminate].
  destruct (nth_error (data p) 3) as [b|] eqn:Hb;
    [|vm_compute in Hp; injection Hp as <-; discriminate].
  exists p, a, b. split; [reflexivity|]. split; [exact Ha|]. split; [exact Hb|].
  apply (wealth_never_shrinks _ _ _ p Hp 1 3 a b); [lia | exact Ha | exact Hb].
Defined.

Lemma inactive_wellFormed_zero (ds : list Debt) :
  Forall WellFormed ds ->
  (forall d, In d ds -> isActive d = false) ->
  sumCurrentAmount ds == 0.
Proof.
  intros Hwf Hinactive. unfold sumCurrentAmount.
  rewrite sum_of_zero_balances; [reflexivity|].
  intros d Hd. apply Qle_antisym.
  - apply gtb_false. now apply Hinactive.
  - rewrite Forall_forall in Hwf. now apply Hwf.
Qed.

(** X11.  Nothing is saved while something is owed: from debts without
    negative balance or rate, a month that ends with debt left adds nothing to
    the wealth. *)
Theorem no_wealth_while_in_debt (capacity : Q) (s : StrategyType)
    (st : SimState) :
  Forall WellFormed (simDebts st) ->
  ~ currentTotalDebt (simulateMonth capacity s st) == 0 ->
  accumulatedWealth (simulateMonth capacity s st) = accumulatedWealth st.
Proof.
  intros Hwf. pose proof (simulateMonth_wellFormed capacity s st Hwf) as Hwf'.
  revert Hwf'. unfold simulateMonth.
  destruct (payMinimums _ _) as [ds2 b2].
  destruct (payExtra_cases s ds2 b2 (accumulatedWealth st))
    as [[Hb Hres]|[(Hb & Hin & Hres)|(Hb & l1 & target & l2 & _ & _ & Hres)]];
    rewrite Hres; simpl; intros Hwf' Hdebt.
  - now rewrite Hb, andb_false_r.
  - exfalso. apply Hdebt. now apply inactive_wellFormed_zero.
  - destruct (JS.eqb _ 0) eqn:Hz; [|reflexivity].
    exfalso. apply Hdebt. now apply eqb_spec.
Qed.

Lemma no_wealth_while_in_debt_witness :
  Forall WellFormed (simDebts (initialState scenarioB 6000)) /\
  ~ currentTotalDebt (simulateMonth 400 avalanche (initialState scenarioB 6000))
    == 0 /\
  accumulatedWealth (simulateMonth 400 avalanche (initialState scenarioB 6000))
    = 0.
Proof.
  assert (Hwf : Forall WellFormed (simDebts (initialState scenarioB 6000))).
  { repeat constructor; simpl; try discriminate;
      intros r Hr; injection Hr as <-; discriminate. }
  assert (Hdebt : ~ currentTotalDebt
                      (simulateMonth 400 avalanche (initialState scenarioB 6000))
                    == 0).
  { intro H. vm_compute in H. discriminate. }
  split; [exact Hwf|]. split; [exact Hdebt|].
  exact (no_wealth_while_in_debt 400 avalanche _ Hwf Hdebt).
Defined.

Lemma simulateMonth_idle (capacity : Q) (s : StrategyType) (st : SimState) :
  (forall d, In d (simDebts st) -> isActive d = false) ->
  simDebts (simulateMonth capacity s st) = simDebts st.
Proof.
  intro Hinactive. unfold simulateMonth.
  assert (Hint : map applyInterest (simDebts st) = simDebts st).
  { rewrite <- (map_id (simDebts st)) at 2. apply map_ext_in.
    intros d Hd. unfold applyInterest.
    specialize (Hinactive d Hd). unfold isActive in Hinactive.
    rewrite Hinactive. now destruct (interestRate d). }
  rewrite Hint, (payMinimums_inactive _ _ Hinactive).
  destruct (payExtra_cases s (simDebts st) capacity (accumulatedWealth st))
    as [[_ Hres]|[(_ & _ & Hres)|(_ & l1 & target & l2 & Hds & Hact & _)]].
  - now rewrite Hres.
  - now rewrite Hres.
  - exfalso. assert (Hin : In target (simDebts st))
      by (rewrite Hds; apply in_or_app; right; now left).
    specialize (Hinactive target Hin). congruence.
Qed.

(** X12.  Being out of debt is final: once no debt has a positive balance,
    no later month changes a balance, and every later point reports the same
    debt. *)
Theorem debt_free_is_final (capacity : Q) (s : StrategyType) (st : SimState) :
  (forall d, In d (simDebts st) -> isActive d = false) ->
  forall k,
    simDebts (afterMonths capacity s k st) = simDebts st /\
    deuda (emitted (afterMonths capacity s k st)) =
      JS.Math_max 0 (JS.Math_round (sumCurrentAmount (simDebts st))).
Proof.
  intros Hinactive k.
  assert (Hk : simDebts (afterMonths capacity s k st) = simDebts st).
  { induction k as [|k IH]; [reflexivity|].
    change (afterMonths capacity s (S k) st)
      with (simulateMonth capacity s (afterMonths capacity s k st)).
    rewrite simulateMonth_idle; [exact IH|]. now rewrite IH. }
  split; [exact Hk|]. unfold emitted, monthPoint. simpl. now rewrite Hk.
Qed.

Lemma debt_free_is_final_witness :
  (forall d, In d [debt "A" 0 (Some 30) 100] -> isActive d = false) /\
  simDebts (afterMonths 250 snowball 9
              (initialState [debt "A" 0 (Some 30) 100] 0))
  = [debt "A" 0 (Some 30) 100].
Proof.
  assert (H : forall d, In d (simDebts (initialState [debt "A" 0 (Some 30) 100] 0))
                        -> isActive d = false).
  { intros d [<-|[]]. reflexivity. }
  split; [exact H|].
  exact (proj1 (debt_free_is_final 250 snowball _ H 9)).
Defined.

(** ** More on the projection *)

Lemma find_first {A : Type} (f : A -> bool) (l : list A) (x : A) :
  find f l = Some x ->
  exists i, nth_error l i = Some x /\ f x = true /\
    forall j y, (j < i)%nat -> nth_error l j = Some y -> f y = false.
Proof.
  induction l as [|a l IH]; simpl; [discriminate|].
  destruct (f a) eqn:Hfa.
  - intro H. injection H as <-. exists 0%nat. repeat split; [exact Hfa|].
    intros j y Hj. lia.
  - intro H. destruct (IH H) as (i & Hi & Hfx & Hbefore).
    exists (S i). repeat split; try assumption.
    intros [|j] y Hj Hy; simpl in Hy.
    + now injection Hy as <-.
    + apply (Hbefore j); [lia | exact Hy].
Qed.

(** X13.  The debt-free month of a projection is the position of its first
    point whose debt reads 0, and 60 when no point reads 0; it lies between 1
    and 60, the seed never being that point. *)
Theorem debt_free_month_is_first_zero_point (debts : list Debt) (capacity : Q)
    (s : StrategyType) (p : Projection) :
  projection debts capacity s = Some p ->
  (1 <= debtFreeInMonths p <= 60)%nat /\
  ((exists pt,
      nth_error (data p) (debtFreeInMonths p) = Some pt /\ deuda pt == 0 /\
      forall i q, (i < debtFreeInMonths p)%nat ->
        nth_error (data p) i = Some q -> ~ deuda q == 0)
   \/
   (debtFreeInMonths p = 60%nat /\
    forall q, In q (data p) -> ~ deuda q == 0)).
Proof.
  intro Hp.
  destruct (projection_points debts capacity s p Hp)
    as (Hnz & n & Hn & Hlen & Hfree & _).
  rewrite Hfree. unfold debtFreeMonth.
  destruct (find (fun pt => JS.eqb (deuda pt) 0) (data p)) as [pt|] eqn:Hfind.
  - destruct (find_first _ _ _ Hfind) as (i & Hi & Hzero & Hbefore).
    apply eqb_spec in Hzero.
    destruct (projection_point_at debts capacity s p i pt Hp Hi)
      as (Hindex & _ & Hseed & _).
    assert (Hpos : (1 <= i)%nat).
    { destruct i as [|i]; [|lia]. exfalso. apply Hnz.
      rewrite <- (Hseed eq_refl). exact Hzero. }
    assert (Hlt : (i < S n)%nat).
    { rewrite <- Hlen. apply nth_error_Some. congruence. }
    rewrite Hindex.
    destruct (Nat.eqb_spec i 0) as [H0|_]; [lia|].
    split; [lia|]. left. exists pt. repeat split; try assumption.
    intros j q Hj Hq Hq0.
    specialize (Hbefore j q Hj Hq). apply eqb_spec in Hq0.
    unfold JS.eqb in *. congruence.
  - split; [unfold maxMonths; lia|]. right. split; [reflexivity|].
    intros q Hq Hq0. apply eqb_spec in Hq0.
    pose proof (find_none _ _ Hfind q Hq) as Hf. simpl in Hf. congruence.
Qed.

Lemma debt_free_month_is_first_zero_point_witness :
  exists p,
    projection [debt "A" 100 (Some 0) 100] 100 avalanche = Some p /\
    (1 <= debtFreeInMonths p <= 60)%nat.
Proof.
  destruct (projection [debt "A" 100 (Some 0) 100] 100 avalanche) as [p|] eqn:Hp;
    [|vm_compute in Hp; discriminate].
  exists p. split; [reflexivity|].
  exact (proj1 (debt_free_month_is_first_zero_point _ _ _ p Hp)).
Defined.

(** X14.  A projection has the seed and between 12 and 60 monthly points, in
    order: the point at position [i] has index [i], the label "Hoy" at
    position 0 and "Mes i" behind it. *)
Theorem projection_points_are_in_order (debts : list Debt) (capacity : Q)
    (s : StrategyType) (p : Projection) :
  projection debts capacity s = Some p ->
  (13 <= List.length (data p) <= 61)%nat /\
  forall i pt, nth_error (data p) i = Some pt ->
    index pt = i /\
    monthLabel pt =
      match i with
      | O => "Hoy"%string
      | S _ => String.append "Mes " (JS.nat_to_string i)
      end.
Proof.
  intro Hp.
  destruct (projection_points debts capacity s p Hp)
    as (_ & n & Hn & Hlen & _ & Hseed & _).
  split; [lia|].
  intros i pt Hpt.
  destruct (projection_point_at debts capacity s p i pt Hp Hpt)
    as (Hindex & _ & _ & Hmonth).
  split; [exact Hindex|].
  destruct i as [|i].
  - assert (Hhd : hd_error (data p) = Some pt) by (now destruct (data p)).
    rewrite Hseed in Hhd. now injection Hhd as <-.
  - rewrite (Hmonth (le_n_S _ _ (Nat.le_0_l i))).
    unfold emitted, monthPoint. cbn [monthLabel].
    now rewrite afterMonths_month.
Qed.

Lemma projection_points_are_in_order_witness :
  exists p,
    projection scenarioB 400 snowball = Some p /\
    (13 <= List.length (data p) <= 61)%nat.
Proof.
  destruct (projection scenarioB 400 snowball) as [p|] eqn:Hp.
  - exists p. split; [reflexivity|].
    exact (proj1 (projection_points_are_in_order _ _ _ p Hp)).
  - exfalso. unfold projection in Hp.
    destruct (JS.eqb (sumCurrentAmount scenarioB) 0) eqn:E; discriminate.
Defined.

(** ** The history chart *)

(** X15.  In the history chart every recorded entry gets a paid amount that
    is never negative: it is 0 when the entry's debt is at least the initial
    total, and the initial total less the entry's debt, which is then
    positive, when the entry's debt is below it.  The chart ends with today's
    point, whose paid amount is the initial total less today's total, without
    the floor at 0. *)
Theorem history_paid_is_floored (debts : list Debt)
    (history : list HistoryEntry) :
  List.length (finalHistoryData debts history) = S (List.length history) /\
  (forall i h, nth_error history i = Some h ->
     exists pt,
       nth_error (finalHistoryData debts history) i = Some pt /\
       entry pt = h /\
       0 <= paid pt /\
       (sumInitialAmount debts <= totalDebt h -> paid pt == 0) /\
       (totalDebt h < sumInitialAmount debts ->
        paid pt = sumInitialAmount debts - totalDebt h /\ 0 < paid pt)) /\
  nth_error (finalHistoryData debts history) (List.length history) =
    Some {| entry := {| date := "Hoy"; totalDebt := sumCurrentAmount debts |};
            paid := sumInitialAmount debts - sumCurrentAmount debts |}.
Proof.
  unfold finalHistoryData, historyDataWithPaid. repeat split.
  - rewrite length_app, length_map. simpl. lia.
  - intros i h Hh.
    assert (Hi : (i < List.length history)%nat)
      by (apply nth_error_Some; congruence).
    eexists. split.
    { rewrite nth_error_app1 by (now rewrite length_map).
      rewrite nth_error_map, Hh. reflexivity. }
    simpl. unfold JS.Math_max.
    pose proof (Q.le_max_l 0 (sumInitialAmount debts - totalDebt h)) as H0.
    repeat split; try lra.
    + intro Hle. rewrite Q.max_l by lra. reflexivity.
    + unfold Qmax, GenericMinMax.gmax.
      destruct (0 ?= sumInitialAmount debts - totalDebt h) eqn:Hc;
        try reflexivity.
      * apply Qeq_alt in Hc. lra.
      * apply Qgt_alt in Hc. lra.
    + pose proof (Q.le_max_r 0 (sumInitialAmount debts - totalDebt h)). lra.
  - rewrite nth_error_app2 by (now rewrite length_map).
    rewrite length_map, Nat.sub_diag. reflexivity.
Qed.

Lemma history_paid_is_floored_witness :
  nth_error [mkHistoryEntry "2024-01" 7000; mkHistoryEntry "2024-02" 5500] 1
    = Some (mkHistoryEntry "2024-02" 5500) /\
  5500 < sumInitialAmount scenarioB /\
  exists pt,
    nth_error (finalHistoryData scenarioB
                 [mkHistoryEntry "2024-01" 7000; mkHistoryEntry "2024-02" 5500]) 1
      = Some pt /\
    paid pt = sumInitialAmount scenarioB - 5500 /\
    paid pt == 500.
Proof.
  assert (Hlt : 5500 < sumInitialAmount scenarioB) by reflexivity.
  split; [reflexivity|]. split; [exact Hlt|].
  destruct (proj1 (proj2 (history_paid_is_floored scenarioB
                            [mkHistoryEntry "2024-01" 7000;
                             mkHistoryEntry "2024-02" 5500]))
              1%nat (mkHistoryEntry "2024-02" 5500) eq_refl)
    as (pt & Hpt & _ & _ & _ & Hpaid).
  destruct (Hpaid Hlt) as [Heq _].
  exists pt. split; [exact Hpt|]. split; [exact Heq|].
  rewrite Heq. reflexivity.
Defined.

(** ** The login screen as a whole *)

Lemma handleLogin_calls (st : LoginState) (u : UserProfile) :
  In (onLogin u) (snd (handleLogin st)) ->
  selectedUser st = Some u /\ pin st = "2024"%string.
Proof.
  unfold handleLogin.
  destruct (selectedUser st) as [user|]; [|intros [H|[]]; discriminate].
  destruct (String.eqb (pin st) "2024") eqn:Hpin; simpl.
  - apply String.eqb_eq in Hpin.
    intros [H|[H|[]]]; [discriminate|]. injection H as <-. now split.
  - intros [H|[]]. discriminate.
Qed.

Lemma handleLogin_keeps_user (st : LoginState) :
  selectedUser (fst (handleLogin st)) = selectedUser st /\
  (pin (fst (handleLogin st)) = pin st \/ pin (fst (handleLogin st)) = ""%string).
Proof.
  unfold handleLogin.
  destruct (selectedUser st) as [user|] eqn:Hu; [|simpl; auto].
  destruct (String.eqb (pin st) "2024"); simpl; auto.
Qed.

Lemma react_submit (v : LoginView) :
  react v submitForm =
  ({| gate := fst (handleLogin (gate v)); showConfig := showConfig v;
      firebaseConfig := firebaseConfig v |},
   snd (handleLogin (gate v))).
Proof. simpl. now destruct (handleLogin (gate v)). Qed.

Lemma react_gate (v : LoginView) (e : Event) :
  (forall u, selectedUser (gate (fst (react v e))) = Some u ->
     e = clickUser u \/ selectedUser (gate v) = Some u) /\
  (pin (gate (fst (react v e))) = "2024"%string ->
     e = typePin "2024" \/ pin (gate v) = "2024"%string) /\
  (forall u, In (onLogin u) (snd (react v e)) ->
     e = submitForm /\ selectedUser (gate v) = Some u /\
     pin (gate v) = "2024"%string).
Proof.
  pose proof (handleLogin_keeps_user (gate v)) as [Hu Hp].
  split; [|split].
  - intro u.
    destruct e as [user| |value| | | |value|[| |]];
      try rewrite react_submit; simpl; intro H; auto.
    + injection H as <-. now left.
    + discriminate.
    + right. congruence.
  - destruct e as [user| |value| | | |value|[| |]];
      try rewrite react_submit; simpl; intro H; auto.
    + discriminate.
    + left. now rewrite H.
    + right. destruct Hp as [Hp|Hp]; [congruence|].
      rewrite Hp in H. discriminate.
  - intro u.
    destruct e as [user| |value| | | |value|[| |]];
      try rewrite react_submit; simpl; intro H; try contradiction.
    apply handleLogin_calls in H. tauto.
Qed.

Lemma session_logins (events : list Event) :
  forall v final calls u,
    session v events = Some (final, calls) ->
    In (onLogin u) calls ->
    (In (clickUser u) events \/ selectedUser (gate v) = Some u) /\
    (In (typePin "2024") events \/ pin (gate v) = "2024"%string) /\
    In submitForm events.
Proof.
  induction events as [|e rest IH]; intros v final calls u Hs Hin; simpl in Hs.
  - injection Hs as _ <-. destruct Hin.
  - destruct (rendered v e); [|discriminate].
    destruct (react_gate v e) as (Huser & Hpin & Hcall).
    destruct (react v e) as [v1 c1]. simpl in *.
    destruct (session v1 rest) as [[final' later]|] eqn:Hrest; [|discriminate].
    injection Hs as _ <-.
    apply in_app_or in Hin. destruct Hin as [Hin|Hin].
    + destruct (Hcall u Hin) as (-> & Hu & Hp). auto.
    + destruct (IH v1 final' later u Hrest Hin) as (Hu & Hp & Hsub).
      repeat split.
      * destruct Hu as [Hu|Hu]; [auto|].
        destruct (Huser u Hu) as [->|Hv]; auto.
      * destruct Hp as [Hp|Hp]; [auto|].
        destruct (Hpin Hp) as [->|Hv]; auto.
      * now right.
Qed.

(** X16.  The only way in is the PIN: in any session from the freshly
    mounted screen, [onLogin] is called with a user only if that user's button
    was clicked, "2024" was typed into the PIN field and the form was
    submitted. *)
Theorem login_needs_the_user_and_the_pin (events : list Event)
    (final : LoginView) (calls : list Call) (u : UserProfile) :
  session mounted events = Some (final, calls) ->
  In (onLogin u) calls ->
  In (clickUser u) events /\ In (typePin "2024") events /\ In submitForm events.
Proof.
  intros Hs Hin.
  destruct (session_logins events mounted final calls u Hs Hin)
    as ([Hu|Hu] & [Hp|Hp] & Hsub); simpl in *; try discriminate.
  repeat split; assumption.
Qed.

Lemma login_needs_the_user_and_the_pin_witness :
  exists final,
    session mounted [clickUser Edna; typePin "2024"; submitForm]
      = Some (final, [preventDefault; onLogin Edna]) /\
    In (onLogin Edna) [preventDefault; onLogin Edna] /\
    In (typePin "2024") [clickUser Edna; typePin "2024"; submitForm].
Proof.
  eexists. split; [reflexivity|].
  assert (Hin : In (onLogin Edna) [preventDefault; onLogin Edna])
    by (right; left; reflexivity).
  split; [exact Hin|].
  exact (proj1 (proj2 (login_needs_the_user_and_the_pin
                         [clickUser Edna; typePin "2024"; submitForm]
                         _ _ Edna eq_refl Hin))).
Defined.

Lemma react_keeps_pin_empty (v : LoginView) (e : Event) :
  rendered v e = true ->
  (selectedUser (gate v) = None -> pin (gate v) = ""%string) ->
  selectedUser (gate (fst (react v e))) = None ->
  pin (gate (fst (react v e))) = ""%string.
Proof.
  intros Hr Hinv.
  destruct e as [user| |value| | | |value|[| |]]; simpl in *; auto;
    try discriminate.
  - destruct (selectedUser (gate v)); discriminate.
  - pose proof (handleLogin_keeps_user (gate v)) as [Hu _].
    destruct (handleLogin (gate v)) as [g calls]. simpl in *.
    rewrite Hu. destruct (selectedUser (gate v)); discriminate.
Qed.

Lemma session_keeps_pin_empty (events : list Event) :
  forall v final calls,
    (selectedUser (gate v) = None -> pin (gate v) = ""%string) ->
    session v events = Some (final, calls) ->
    selectedUser (gate final) = None -> pin (gate final) = ""%string.
Proof.
  induction events as [|e rest IH]; intros v final calls Hinv Hs; simpl in Hs.
  - injection Hs as <- _. exact Hinv.
  - destruct (rendered v e) eqn:Hr; [|discriminate].
    pose proof (react_keeps_pin_empty v e Hr Hinv) as Hstep.
    destruct (react v e) as [v1 c1]. simpl in *.
    destruct (session v1 rest) as [[final' later]|] eqn:Hrest; [|discriminate].
    injection Hs as <- _. now apply (IH v1 final' later).
Qed.

(** X17.  A PIN does not pass from one user to the next: in any session
    from the freshly mounted screen, whenever the two user buttons are on the
    screen the PIN held by the component is empty, so the form that a click
    on a user opens starts with an empty PIN. *)
Theorem pin_is_empty_when_choosing_a_user (events : list Event)
    (final : LoginView) (calls : list Call) :
  session mounted events = Some (final, calls) ->
  selectedUser (gate final) = None ->
  pin (gate final) = ""%string /\
  forall user, pin (gate (fst (react final (clickUser user)))) = ""%string.
Proof.
  intros Hs Hnone.
  assert (Hpin : pin (gate final) = ""%string).
  { apply (session_keeps_pin_empty events mounted final calls); auto. }
  split; [exact Hpin|]. intro user. exact Hpin.
Qed.

Lemma pin_is_empty_when_choosing_a_user_witness :
  exists final calls,
    session mounted [clickUser Edna; typePin "1999"; clickChangeUser]
      = Some (final, calls) /\
    selectedUser (gate final) = None /\
    pin (gate final) = ""%string.
Proof.
  eexists. eexists. split; [reflexivity|]. split; [reflexivity|].
  exact (proj1 (pin_is_empty_when_choosing_a_user
                  [clickUser Edna; typePin "1999"; clickChangeUser]
                  _ _ eq_refl eq_refl)).
Defined.

(** ** Debts paid within the first year *)

Lemma afterMonths_add (capacity : Q) (s : StrategyType) (i j : nat)
    (st : SimState) :
  afterMonths capacity s (i + j) st =
  afterMonths capacity s i (afterMonths capacity s j st).
Proof. unfold afterMonths. apply Nat.iter_add. Qed.

Lemma afterMonths_idle (capacity : Q) (s : StrategyType) (st : SimState) :
  (forall d, In d (simDebts st) -> isActive d = false) ->
  forall k, simDebts (afterMonths capacity s k st) = simDebts st.
Proof.
  intros Hinactive k. induction k as [|k IH]; [reflexivity|].
  change (afterMonths capacity s (S k) st)
    with (simulateMonth capacity s (afterMonths capacity s k st)).
  rewrite simulateMonth_idle; [exact IH|]. now rewrite IH.
Qed.

Lemma inactive_sum_not_positive (ds : list Debt) :
  (forall d, In d ds -> isActive d = false) -> sumCurrentAmount ds <= 0.
Proof.
  intro Hinactive. rewrite sumCurrentAmount_balances.
  induction ds as [|d ds IH]; simpl; [lra|].
  assert (Hd : currentAmount d <= 0) by (apply gtb_false, Hinactive; now left).
  assert (IH' : balances ds <= 0) by (apply IH; intros d' Hd'; apply Hinactive; now right).
  lra.
Qed.

Lemma cleared_stays (capacity : Q) (s : StrategyType) (st : SimState)
    (m k : nat) :
  (m <= k)%nat ->
  (forall d, In d (simDebts (afterMonths capacity s m st)) -> isActive d = false) ->
  simDebts (afterMonths capacity s k st) = simDebts (afterMonths capacity s m st).
Proof.
  intros Hmk Hcleared.
  rewrite <- (Nat.sub_add m k Hmk), afterMonths_add.
  now apply afterMonths_idle.
Qed.

Lemma loopCondition_after (capacity : Q) (s : StrategyType) (st : SimState)
    (k : nat) :
  loopCondition (afterMonths capacity s (S k) st) =
  (JS.gtb (sumCurrentAmount (simDebts (afterMonths capacity s (S k) st))) 0
   || (month st + S k <? 12)%nat)
  && (month st + S k <? maxMonths)%nat.
Proof.
  unfold loopCondition. rewrite afterMonths_month.
  destruct (simulateMonth_shape capacity s (afterMonths capacity s k st))
    as (_ & Htotal & _).
  change (afterMonths capacity s (S k) st)
    with (simulateMonth capacity s (afterMonths capacity s k st)).
  now rewrite Htotal.
Qed.

Lemma cleared_loop (capacity : Q) (s : StrategyType) (st : SimState)
    (m year : nat) :
  month st = 0%nat ->
  year = 12%nat ->
  (1 <= m <= year)%nat ->
  (forall d, In d (simDebts (afterMonths capacity s m st)) -> isActive d = false) ->
  simulate capacity s st = afterMonths capacity s year st /\
  simDebts (afterMonths capacity s year st) =
    simDebts (afterMonths capacity s m st).
Proof.
  intros Hmonth Hyear Hm Hcleared.
  assert (Hdebts : simDebts (afterMonths capacity s year st) =
                   simDebts (afterMonths capacity s m st))
    by (apply cleared_stays; [lia | exact Hcleared]).
  split; [|exact Hdebts].
  destruct (simulate_runs capacity s (maxMonths - month st) st (Nat.le_refl _))
    as (n & Hrun & Hbefore & Hstop).
  assert (Hend : loopCondition (afterMonths capacity s year st) = false).
  { destruct year as [|y]; [lia|].
    rewrite loopCondition_after, Hdebts, Hmonth.
    assert (Hle : JS.gtb (sumCurrentAmount
                            (simDebts (afterMonths capacity s m st))) 0 = false)
      by (apply gtb_false; now apply inactive_sum_not_positive).
    assert (Hnot : (0 + S y <? 12)%nat = false)
      by (apply Nat.ltb_ge; lia).
    now rewrite Hle, Hnot. }
  assert (Hn : n = year).
  { destruct (Nat.lt_trichotomy n year) as [Hlt|[Heq|Hgt]]; [|exact Heq|].
    - exfalso. unfold loopCondition in Hstop.
      rewrite afterMonths_month, Hmonth in Hstop.
      assert (Ha : (0 + n <? 12)%nat = true) by (apply Nat.ltb_lt; lia).
      assert (Hb : (0 + n <? maxMonths)%nat = true)
        by (apply Nat.ltb_lt; unfold maxMonths; lia).
      rewrite Ha, Hb, orb_true_r in Hstop. discriminate.
    - specialize (Hbefore year Hgt). congruence. }
  now rewrite Hrun, Hn.
Qed.

(** X18.  When the debts are cleared within the first twelve months, the
    projection runs for twelve months and no longer: it holds the seed and
    twelve monthly points, and the balances at its end are those of the month
    the debts were cleared. *)
Theorem paid_within_a_year_runs_twelve_months (debts : list Debt)
    (capacity : Q) (s : StrategyType) (p : Projection) (m : nat) :
  projection debts capacity s = Some p ->
  (1 <= m <= 12)%nat ->
  (forall d,
     In d (simDebts (afterMonths capacity s m
                       (initialState debts (sumCurrentAmount debts)))) ->
     isActive d = false) ->
  List.length (data p) = 13%nat /\
  simulate capacity s (initialState debts (sumCurrentAmount debts)) =
    afterMonths capacity s 12 (initialState debts (sumCurrentAmount debts)) /\
  simDebts (simulate capacity s (initialState debts (sumCurrentAmount debts))) =
    simDebts (afterMonths capacity s m
                (initialState debts (sumCurrentAmount debts))).
Proof.
  intros Hp Hm Hcleared.
  destruct (cleared_loop capacity s
              (initialState debts (sumCurrentAmount debts)) m 12
              eq_refl eq_refl Hm Hcleared) as [Hrun Hdebts].
  destruct (projection_points debts capacity s p Hp)
    as (_ & n & _ & Hlen & _).
  assert (Hdata : data p =
                  projectionData
                    (simulate capacity s
                       (initialState debts (sumCurrentAmount debts)))).
  { unfold projection in Hp.
    destruct (JS.eqb (sumCurrentAmount debts) 0); [discriminate|].
    now injection Hp as <-. }
  split; [|split].
  - rewrite Hdata, Hrun, afterMonths_points, length_app, length_map, length_seq.
    reflexivity.
  - exact Hrun.
  - rewrite Hrun. exact Hdebts.
Qed.

Lemma paid_within_a_year_runs_twelve_months_witness :
  exists p,
    projection [debt "A" 100 (Some 0) 100] 100 avalanche = Some p /\
    (1 <= 1 <= 12)%nat /\
    (forall d,
       In d (simDebts (afterMonths 100 avalanche 1
                         (initialState [debt "A" 100 (Some 0) 100]
                            (sumCurrentAmount [debt "A" 100 (Some 0) 100])))) ->
       isActive d = false) /\
    List.length (data p) = 13%nat.
Proof.
  destruct (projection [debt "A" 100 (Some 0) 100] 100 avalanche) as [p|] eqn:Hp;
    [|vm_compute in Hp; discriminate].
  assert (Hm : (1 <= 1 <= 12)%nat) by lia.
  assert (Hcleared :
    forall d,
      In d (simDebts (afterMonths 100 avalanche 1
                        (initialState [debt "A" 100 (Some 0) 100]
                           (sumCurrentAmount [debt "A" 100 (Some 0) 100])))) ->
      isActive d = false).
  { intros d Hd. vm_compute in Hd. destruct Hd as [<-|[]]. reflexivity. }
  exists p. split; [reflexivity|]. split; [exact Hm|]. split; [exact Hcleared|].
  exact (proj1 (paid_within_a_year_runs_twelve_months _ _ _ p 1 Hp Hm Hcleared)).
Defined.

(** ** The login gate, as the screen runs it *)

(** C10.  [handleLogin] runs when the form is submitted, and the form is on
    the screen only with a user selected.  On every such submit, [onLogin] is
    called, with the selected user, exactly when the PIN is "2024", and the
    state is then left as it is; for any other PIN the error becomes
    "PIN Incorrecto", the PIN is cleared, the user stays selected and
    [onLogin] is not called. *)
Theorem login_gate_on_submit (v : LoginView) :
  rendered v submitForm = true ->
  fst (react v submitForm) =
    {| gate := fst (handleLogin (gate v)); showConfig := showConfig v;
       firebaseConfig := firebaseConfig v |} /\
  snd (react v submitForm) = snd (handleLogin (gate v)) /\
  (exists user, selectedUser (gate v) = Some user) /\
  (forall u, In (onLogin u) (snd (handleLogin (gate v))) <->
             selectedUser (gate v) = Some u /\ pin (gate v) = "2024"%string) /\
  (pin (gate v) = "2024"%string -> fst (handleLogin (gate v)) = gate v) /\
  (pin (gate v) <> "2024"%string ->
     error (fst (handleLogin (gate v))) = "PIN Incorrecto"%string /\
     pin (fst (handleLogin (gate v))) = ""%string /\
     selectedUser (fst (handleLogin (gate v))) = selectedUser (gate v) /\
     forall u, ~ In (onLogin u) (snd (handleLogin (gate v)))).
Proof.
  intro Hform. rewrite react_submit. simpl.
  split; [reflexivity|]. split; [reflexivity|].
  simpl in Hform.
  destruct (selectedUser (gate v)) as [user|] eqn:Hu; [|discriminate].
  destruct (handleLogin_gate (gate v)) as (Hiff & Hok & Hbad & _).
  split; [now exists user|].
  split; [intro u; rewrite <- Hu; apply Hiff|].
  split.
  - intro Hpin. now rewrite (Hok user Hu Hpin).
  - intro Hpin. rewrite (Hbad user Hu Hpin). simpl.
    repeat split; try reflexivity; try (symmetry; exact Hu).
    intros u [H|[]]. discriminate.
Qed.

Lemma login_gate_on_submit_witness :
  (rendered (mkLoginView (mkLoginState (Some Edna) "2024" "") false "")
     submitForm = true /\
   In (onLogin Edna)
      (snd (handleLogin
              (gate (mkLoginView (mkLoginState (Some Edna) "2024" "") false ""))))) /\
  (rendered (mkLoginView (mkLoginState (Some Ronaldo) "1234" "") false "")
     submitForm = true /\
   error (fst (handleLogin
                 (gate (mkLoginView (mkLoginState (Some Ronaldo) "1234" "")
                          false ""))))
     = "PIN Incorrecto"%string /\
   pin (fst (handleLogin
               (gate (mkLoginView (mkLoginState (Some Ronaldo) "1234" "")
                        false ""))))
     = ""%string).
Proof.
  split.
  - assert (Hform : rendered (mkLoginView (mkLoginState (Some Edna) "2024" "")
                               false "") submitForm = true) by reflexivity.
    split; [exact Hform|].
    destruct (login_gate_on_submit _ Hform) as (_ & _ & _ & Hiff & _).
    apply Hiff. split; reflexivity.
  - assert (Hform : rendered (mkLoginView (mkLoginState (Some Ronaldo) "1234" "")
                               false "") submitForm = true) by reflexivity.
    split; [exact Hform|].
    destruct (login_gate_on_submit _ Hform) as (_ & _ & _ & _ & _ & Hbad).
    assert (Hpin : pin (gate (mkLoginView (mkLoginState (Some Ronaldo) "1234" "")
                                false "")) <> "2024"%string) by discriminate.
    destruct (Hbad Hpin) as (Herr & Hclr & _).
    split; [exact Herr | exact Hclr].
Defined.
